(** * MineNBT: a shallow embedding of the NBT codec

    The development follows the three source modules:
    - [stream.py]  : the byte cursor [Stream] ([read], [peek], [alive]);
    - [nbt_tag.py] : [read_string], the tag classes with their [read],
                     [write], [build] and [__json__] methods, [TAG_MAP],
                     and the [__repr__] of the array classes;
    - [nbt.py]     : the document class [NBT] ([read], [add], [build],
                     [dict]).

    Python values are modelled as follows.  [bytes] is a list of
    [Byte.byte]; [int] is [Z]; [str] is the list of its code points; an
    exception is a constructor of [PyExc]; a method that mutates the stream
    is a computation in a state-and-exception monad whose state is the
    stream, the state being kept when an exception is raised.  Loops and
    recursion whose termination depends on the input take a fuel argument,
    and running out of it is the distinguished outcome [Diverge]: a
    negative string length moves the stream backwards, so the decoder can
    loop on a finite buffer.  The interpreter's bound on the depth of
    recursion is not an exception of the model: a decoding that Python
    stops with [RecursionError] is one that needs more fuel than it is
    given, and the encoder, whose recursion is structural, always
    finishes here.  The properties of nested trees are therefore stated
    for every amount of fuel, with [Diverge] as one of the outcomes, and
    under the hypothesis that the encoder returned. *)

From Stdlib Require Import ZArith List Lia Bool String Ascii.
From Stdlib.Strings Require Import Byte.
Import ListNotations.
Open Scope Z_scope.
Set Warnings "-register-all".

(* ================================================================= *)
(** ** Python values, exceptions and outcomes *)

(** The exceptions the three modules can raise, directly or through
    [struct], indexing and text codecs. *)
Inductive PyExc : Type :=
| EOFError
| NotImplementedError (type_id : Z)
| ValueError
| TypeError
| IndexError
| StructError
| UnicodeDecodeError
| UnicodeEncodeError
| AttributeError
| KeyError.

Inductive Outcome (A : Type) : Type :=
| Ok (a : A)
| Raise (e : PyExc)
| Diverge.

Arguments Ok {A} a.
Arguments Raise {A} e.
Arguments Diverge {A}.

Definition bytes := list byte.

(** A Python [str]: its sequence of Unicode code points. *)
Definition PyStr := list Z.

Definition len {A : Type} (l : list A) : Z := Z.of_nat (List.length l).

(** An index of a slice, adjusted as CPython does for a sequence of length
    [n]: a negative index counts from the end, and the result is clipped to
    [0 .. n]. *)
Definition adjust_index (n i : Z) : Z :=
  if i <? 0 then (if i + n <? 0 then 0 else i + n)
  else (if n <? i then n else i).

(** [seq[start:stop]] *)
Definition py_slice {A : Type} (l : list A) (start stop : Z) : list A :=
  let a := adjust_index (len l) start in
  let b := adjust_index (len l) stop in
  firstn (Z.to_nat (b - a)) (skipn (Z.to_nat a) l).

(** Outcomes form an exception monad (used by the encoders and the dump,
    which touch no stream). *)
Definition obind {A B : Type} (o : Outcome A) (k : A -> Outcome B) : Outcome B :=
  match o with
  | Ok a => k a
  | Raise e => Raise e
  | Diverge => Diverge
  end.

(** The outcomes of a list of computations evaluated left to right: the
    first one that is not [Ok] decides. *)
Fixpoint all_ok {A : Type} (l : list (Outcome A)) : Outcome (list A) :=
  match l with
  | [] => Ok []
  | o :: rest => obind o (fun a => obind (all_ok rest) (fun r => Ok (a :: r)))
  end.

(* ================================================================= *)
(** ** stream.py *)

Record Stream : Type := mkStream { data : bytes; index : Z }.

(** [Stream(data)] *)
Definition Stream_init (d : bytes) : Stream := mkStream d 0.

(** Computations over a stream. *)
Definition M (A : Type) : Type := Stream -> Outcome A * Stream.

Definition ret {A : Type} (a : A) : M A := fun s => (Ok a, s).
Definition raise {A : Type} (e : PyExc) : M A := fun s => (Raise e, s).
Definition diverge {A : Type} : M A := fun s => (Diverge, s).
Definition bind {A B : Type} (c : M A) (k : A -> M B) : M B :=
  fun s =>
    match c s with
    | (Ok a, s') => k a s'
    | (Raise e, s') => (Raise e, s')
    | (Diverge, s') => (Diverge, s')
    end.
Definition lift {A : Type} (o : Outcome A) : M A := fun s => (o, s).

Notation "x <- c ;; k" := (bind c (fun x => k))
  (at level 61, c at next level, right associativity).

(** [Stream.read] *)
Definition Stream_read (size : Z) : M bytes := fun s =>
  if len (data s) <? index s + size then (Raise EOFError, s)
  else (Ok (py_slice (data s) (index s) (index s + size)),
        mkStream (data s) (index s + size)).

(** [Stream.peek] *)
Definition Stream_peek (size : Z) : M bytes := fun s =>
  if len (data s) <? index s + size then (Raise EOFError, s)
  else (Ok (py_slice (data s) (index s) (index s + size)), s).

(** [Stream.alive] *)
Definition Stream_alive (s : Stream) : bool := index s <? len (data s).

(* ================================================================= *)
(** ** The parts of [struct] and of the text codec the module uses *)

Definition byte_val (b : byte) : Z := Z.of_N (Byte.to_N b).

(** The byte of value [z mod 256]. *)
Definition byte_of_Z (z : Z) : byte :=
  match Byte.of_N (Z.to_N (z mod 256)) with
  | Some b => b
  | None => x00
  end.

(** Big-endian value of a byte string, unsigned. *)
Definition be_unsigned (bs : bytes) : Z :=
  fold_left (fun acc b => acc * 256 + byte_val b) bs 0.

(** Two's complement reading of an unsigned [w]-bit value. *)
Definition to_signed (w : Z) (u : Z) : Z :=
  if u <? 2 ^ (w - 1) then u else u - 2 ^ w.

(** The [n] big-endian bytes of [z] modulo [256^n]. *)
Fixpoint be_bytes (n : nat) (z : Z) : bytes :=
  match n with
  | O => []
  | S k => be_bytes k (z / 256) ++ [byte_of_Z z]
  end.

(** [struct.unpack(fmt, bs)[0]] for a signed big-endian format of [n]
    bytes: the buffer must hold exactly [n] bytes. *)
Definition unpack_signed (n : nat) (bs : bytes) : Outcome Z :=
  if Nat.eqb (List.length bs) n
  then Ok (to_signed (8 * Z.of_nat n) (be_unsigned bs))
  else Raise StructError.

(** [struct.pack(fmt, v)] for a signed big-endian format of [n] bytes: the
    value must fit. *)
Definition pack_signed (n : nat) (v : Z) : Outcome bytes :=
  if (- 2 ^ (8 * Z.of_nat n - 1) <=? v) && (v <? 2 ^ (8 * Z.of_nat n - 1))
  then Ok (be_bytes n v)
  else Raise StructError.

Definition unpack_b := unpack_signed 1.   (* ">b" *)
Definition unpack_h := unpack_signed 2.   (* ">h" *)
Definition unpack_i := unpack_signed 4.   (* ">i" *)
Definition unpack_q := unpack_signed 8.   (* ">q" *)
Definition pack_b := pack_signed 1.
Definition pack_h := pack_signed 2.
Definition pack_i := pack_signed 4.
Definition pack_q := pack_signed 8.

(** A Python [float] read by [">f"] or [">d"] is represented by the bit
    pattern it was read from ([n] bytes, as an unsigned value), and packing
    it gives the pattern back: the conversion between single and double
    precision that [struct] performs is not modelled (it turns the pattern
    of a signalling NaN into that of a quiet one).  No property below
    depends on the value of a float. *)
Definition unpack_float (n : nat) (bs : bytes) : Outcome Z :=
  if Nat.eqb (List.length bs) n then Ok (be_unsigned bs) else Raise StructError.

Definition pack_float (n : nat) (bits : Z) : Outcome bytes := Ok (be_bytes n bits).

(** [bs[0]] *)
Definition first_byte (bs : bytes) : Outcome Z :=
  match bs with
  | [] => Raise IndexError
  | b :: _ => Ok (byte_val b)
  end.

(** *** UTF-8 *)

Definition is_cont (b : Z) : bool := (128 <=? b) && (b <? 192).

(** [bs.decode("utf-8")], strict: overlong forms, surrogates, values above
    U+10FFFF and truncated sequences are rejected. *)
Fixpoint utf8_decode_aux (fuel : nat) (bs : list Z) : option PyStr :=
  match fuel with
  | O => match bs with [] => Some [] | _ => None end
  | S f =>
    match bs with
    | [] => Some []
    | b0 :: r0 =>
      if b0 <? 128 then option_map (cons b0) (utf8_decode_aux f r0)
      else if (194 <=? b0) && (b0 <? 224) then
        match r0 with
        | b1 :: r1 =>
          if is_cont b1
          then option_map (cons ((b0 - 192) * 64 + (b1 - 128))) (utf8_decode_aux f r1)
          else None
        | _ => None
        end
      else if (224 <=? b0) && (b0 <? 240) then
        match r0 with
        | b1 :: b2 :: r2 =>
          let c := (b0 - 224) * 4096 + (b1 - 128) * 64 + (b2 - 128) in
          if is_cont b1 && is_cont b2 && (2048 <=? c)
             && negb ((55296 <=? c) && (c <? 57344))
          then option_map (cons c) (utf8_decode_aux f r2)
          else None
        | _ => None
        end
      else if (240 <=? b0) && (b0 <? 245) then
        match r0 with
        | b1 :: b2 :: b3 :: r3 =>
          let c := (b0 - 240) * 262144 + (b1 - 128) * 4096
                   + (b2 - 128) * 64 + (b3 - 128) in
          if is_cont b1 && is_cont b2 && is_cont b3
             && (65536 <=? c) && (c <? 1114112)
          then option_map (cons c) (utf8_decode_aux f r3)
          else None
        | _ => None
        end
      else None
    end
  end.

Definition utf8_decode (bs : bytes) : Outcome PyStr :=
  match utf8_decode_aux (List.length bs) (map byte_val bs) with
  | Some s => Ok s
  | None => Raise UnicodeDecodeError
  end.

(** The UTF-8 form of one code point; [None] for a surrogate or a value
    that is no code point. *)
Definition utf8_encode_char (c : Z) : option bytes :=
  if (c <? 0) || (1114112 <=? c) || ((55296 <=? c) && (c <? 57344)) then None
  else if c <? 128 then Some [byte_of_Z c]
  else if c <? 2048 then
    Some [byte_of_Z (192 + c / 64); byte_of_Z (128 + c mod 64)]
  else if c <? 65536 then
    Some [byte_of_Z (224 + c / 4096); byte_of_Z (128 + (c / 64) mod 64);
          byte_of_Z (128 + c mod 64)]
  else
    Some [byte_of_Z (240 + c / 262144); byte_of_Z (128 + (c / 4096) mod 64);
          byte_of_Z (128 + (c / 64) mod 64); byte_of_Z (128 + c mod 64)].

(** [s.encode("utf-8")] *)
Fixpoint utf8_encode (s : PyStr) : Outcome bytes :=
  match s with
  | [] => Ok []
  | c :: r =>
    match utf8_encode_char c with
    | None => Raise UnicodeEncodeError
    | Some bs => obind (utf8_encode r) (fun rest => Ok (bs ++ rest))
    end
  end.

(** A Rocq string literal as a Python [str]. *)
Definition str (s : string) : PyStr :=
  map (fun a => Z.of_N (N_of_ascii a)) (list_ascii_of_string s).

(* ================================================================= *)
(** ** nbt_tag.py: the tag classes *)

(** A tag object.  [name] is [None] where the class stores Python's [None]
    (an element of a list); [TagEnd] has no attribute at all.  The payload
    of [TagFloat] and [TagDouble] is the float's bit pattern. *)
Inductive Tag : Type :=
| TagEnd
| TagByte (name : option PyStr) (payload : Z)
| TagShort (name : option PyStr) (payload : Z)
| TagInt (name : option PyStr) (payload : Z)
| TagLong (name : option PyStr) (payload : Z)
| TagFloat (name : option PyStr) (payload : Z)
| TagDouble (name : option PyStr) (payload : Z)
| TagByteArray (name : option PyStr) (payload : list Z)
| TagString (name : option PyStr) (payload : PyStr)
| TagList (name : option PyStr) (payload : list Tag)
| TagCompound (name : option PyStr) (payload : list Tag)
| TagIntArray (name : option PyStr) (payload : list Z)
| TagLongArray (name : option PyStr) (payload : list Z).

(** The classes themselves, as the values of [TAG_MAP] and of
    [tag.__class__]. *)
Inductive TagClass : Type :=
| cTagEnd | cTagByte | cTagShort | cTagInt | cTagLong | cTagFloat
| cTagDouble | cTagByteArray | cTagString | cTagList | cTagCompound
| cTagIntArray | cTagLongArray.

Definition TagClass_eqb (a b : TagClass) : bool :=
  match a, b with
  | cTagEnd, cTagEnd | cTagByte, cTagByte | cTagShort, cTagShort
  | cTagInt, cTagInt | cTagLong, cTagLong | cTagFloat, cTagFloat
  | cTagDouble, cTagDouble | cTagByteArray, cTagByteArray
  | cTagString, cTagString | cTagList, cTagList
  | cTagCompound, cTagCompound | cTagIntArray, cTagIntArray
  | cTagLongArray, cTagLongArray => true
  | _, _ => false
  end.

(** [tag.__class__] *)
Definition class_of (t : Tag) : TagClass :=
  match t with
  | TagEnd => cTagEnd
  | TagByte _ _ => cTagByte
  | TagShort _ _ => cTagShort
  | TagInt _ _ => cTagInt
  | TagLong _ _ => cTagLong
  | TagFloat _ _ => cTagFloat
  | TagDouble _ _ => cTagDouble
  | TagByteArray _ _ => cTagByteArray
  | TagString _ _ => cTagString
  | TagList _ _ => cTagList
  | TagCompound _ _ => cTagCompound
  | TagIntArray _ _ => cTagIntArray
  | TagLongArray _ _ => cTagLongArray
  end.

(** The class attribute [TAG_ID]. *)
Definition TAG_ID (c : TagClass) : Z :=
  match c with
  | cTagEnd => 0 | cTagByte => 1 | cTagShort => 2 | cTagInt => 3
  | cTagLong => 4 | cTagFloat => 5 | cTagDouble => 6 | cTagByteArray => 7
  | cTagString => 8 | cTagList => 9 | cTagCompound => 10
  | cTagIntArray => 11 | cTagLongArray => 12
  end.

(** The class attribute [TAG_NAME]. *)
Definition TAG_NAME (c : TagClass) : string :=
  match c with
  | cTagEnd => "TAG_End" | cTagByte => "TAG_Byte" | cTagShort => "TAG_Short"
  | cTagInt => "TAG_Int" | cTagLong => "TAG_Long" | cTagFloat => "TAG_Float"
  | cTagDouble => "TAG_Double" | cTagByteArray => "TAG_Byte_Array"
  | cTagString => "TAG_String" | cTagList => "TAG_List"
  | cTagCompound => "TAG_Compound" | cTagIntArray => "TAG_IntArray"
  | cTagLongArray => "TAG_LongArray"
  end%string.

(** The dictionary [TAG_MAP]: [TAG_MAP id = None] is [id not in TAG_MAP]. *)
Definition TAG_MAP (id : Z) : option TagClass :=
  match id with
  | 0 => Some cTagEnd | 1 => Some cTagByte | 2 => Some cTagShort
  | 3 => Some cTagInt | 4 => Some cTagLong | 5 => Some cTagFloat
  | 6 => Some cTagDouble | 7 => Some cTagByteArray | 8 => Some cTagString
  | 9 => Some cTagList | 10 => Some cTagCompound | 11 => Some cTagIntArray
  | 12 => Some cTagLongArray
  | _ => None
  end.

(** *** Decoding *)

(** [read_string] *)
Definition read_string : M PyStr :=
  b <- Stream_read 2 ;;
  length <- lift (unpack_h b) ;;
  r <- Stream_read length ;;
  lift (utf8_decode r).

(** [read_string(stream) if named else None], the first line of most
    [read] methods. *)
Definition read_name (named : bool) : M (option PyStr) :=
  if named then (n <- read_string ;; ret (Some n)) else ret None.

(** [[f() for _ in range(n)]]: [n] runs of [c], in order. *)
Fixpoint repeatM {A : Type} (n : nat) (c : M A) : M (list A) :=
  match n with
  | O => ret []
  | S k => x <- c ;; r <- repeatM k c ;; ret (x :: r)
  end.

(** [range(n)] is empty for a negative [n]. *)
Definition range_len (n : Z) : nat := Z.to_nat n.

(** A computation run on a stream of its own, [Stream(bs)], which is then
    dropped: only its result or exception reaches the caller. *)
Definition on_fresh_stream {A : Type} (bs : bytes) (c : M A) : M A :=
  lift (fst (c (Stream_init bs))).

(** [TagByte.read]: an unnamed byte gets the empty name, not [None]. *)
Definition TagByte_read (named : bool) : M Tag :=
  name <- (if named then read_string else ret []) ;;
  b <- Stream_read 1 ;;
  payload <- lift (unpack_b b) ;;
  ret (TagByte (Some name) payload).

(** [TagShort.read] *)
Definition TagShort_read (named : bool) : M Tag :=
  name <- read_name named ;;
  b <- Stream_read 2 ;;
  payload <- lift (unpack_h b) ;;
  ret (TagShort name payload).

(** [TagInt.read] *)
Definition TagInt_read (named : bool) : M Tag :=
  name <- read_name named ;;
  b <- Stream_read 4 ;;
  payload <- lift (unpack_i b) ;;
  ret (TagInt name payload).

(** [TagLong.read] *)
Definition TagLong_read (named : bool) : M Tag :=
  name <- read_name named ;;
  b <- Stream_read 8 ;;
  payload <- lift (unpack_q b) ;;
  ret (TagLong name payload).

(** [TagFloat.read] *)
Definition TagFloat_read (named : bool) : M Tag :=
  name <- read_name named ;;
  b <- Stream_read 4 ;;
  payload <- lift (unpack_float 4 b) ;;
  ret (TagFloat name payload).

(** [TagDouble.read] *)
Definition TagDouble_read (named : bool) : M Tag :=
  name <- read_name named ;;
  b <- Stream_read 8 ;;
  payload <- lift (unpack_float 8 b) ;;
  ret (TagDouble name payload).

(** [struct.unpack(fmt, data.read(width))[0]], the element of the array
    comprehensions. *)
Definition read_element (width : nat) : M Z :=
  e <- Stream_read (Z.of_nat width) ;; lift (unpack_signed width e).

(** The common body of the three array readers once the name is known:
    the length prefix, its sign test, [Stream(stream.read(length))] and the
    comprehension reading one element after the other from that new stream. *)
Definition array_body (width : nat) : M (list Z) :=
  b <- Stream_read 4 ;;
  length <- lift (unpack_i b) ;;
  if length <? 0 then raise ValueError
  else
    d <- Stream_read length ;;
    on_fresh_stream d
      (repeatM (range_len length) (read_element width)).

(** [TagByteArray.read] *)
Definition TagByteArray_read (named : bool) : M Tag :=
  name <- read_name named ;;
  payload <- array_body 1 ;;
  ret (TagByteArray name payload).

(** [TagString.read] *)
Definition TagString_read (named : bool) : M Tag :=
  name <- read_name named ;;
  payload <- read_string ;;
  ret (TagString name payload).

(** [read_string() if named else None] of [TagIntArray.read] and
    [TagLongArray.read]: the call passes no stream, which is a
    [TypeError]. *)
Definition read_name_no_arg (named : bool) : M (option PyStr) :=
  if named then raise TypeError else ret None.

(** [TagIntArray.read] *)
Definition TagIntArray_read (named : bool) : M Tag :=
  name <- read_name_no_arg named ;;
  payload <- array_body 4 ;;
  ret (TagIntArray name payload).

(** [TagLongArray.read] *)
Definition TagLongArray_read (named : bool) : M Tag :=
  name <- read_name_no_arg named ;;
  payload <- array_body 8 ;;
  ret (TagLongArray name payload).

(** [TagEnd.read] is declared as [read(self)]: [TagEnd.read(stream)] binds
    the stream to [self] and returns a [TagEnd], while the call
    [TagEnd.read(stream, named=False)] of [TagList.read] is a [TypeError]. *)
Definition TagEnd_read (named : bool) : M Tag :=
  if named then ret TagEnd else raise TypeError.

(** [Tag.create], over the [read] methods [rd] of the classes. *)
Definition Tag_create_with (rd : TagClass -> bool -> M Tag) : M Tag :=
  b <- Stream_read 1 ;;
  type_id <- lift (first_byte b) ;;
  match TAG_MAP type_id with
  | None => raise (NotImplementedError type_id)
  | Some c => rd c true
  end.

(** [TagList.read], over the [read] methods [rd] of the classes. *)
Definition TagList_read_with (rd : TagClass -> bool -> M Tag) (named : bool) : M Tag :=
  name <- read_name named ;;
  b <- Stream_read 1 ;;
  tag_id <- lift (first_byte b) ;;
  match TAG_MAP tag_id with
  | None => raise (NotImplementedError tag_id)
  | Some tag_type =>
    lb <- Stream_read 4 ;;
    length <- lift (unpack_i lb) ;;
    payload <- (if 0 <? length
                then repeatM (range_len length) (rd tag_type false)
                else ret []) ;;
    ret (TagList name payload)
  end.

(** The [while True] loop of [TagCompound.read]; [acc] is the payload so
    far, in reverse, and [n] bounds the number of iterations. *)
Fixpoint compound_loop (create : M Tag) (n : nat) (acc : list Tag) : M (list Tag) :=
  match n with
  | O => diverge
  | S k =>
    tag <- create ;;
    if TAG_ID (class_of tag) =? TAG_ID cTagEnd then ret (rev acc)
    else compound_loop create k (tag :: acc)
  end.

(** [TagCompound.read] *)
Definition TagCompound_read_with (create : M Tag) (n : nat) (named : bool) : M Tag :=
  name <- read_name named ;;
  payload <- compound_loop create n [] ;;
  ret (TagCompound name payload).

(** [TAG_MAP[id].read(stream, named)] for the class [c].  The two container
    classes call back into the table; [fuel] bounds the depth of these calls
    and the iterations of each compound loop.  A decoding that the
    interpreter stops with [RecursionError] is, here, one that needs more
    fuel than it has: its outcome is [Diverge]. *)
Fixpoint class_read (fuel : nat) (c : TagClass) (named : bool) : M Tag :=
  match c with
  | cTagEnd => TagEnd_read named
  | cTagByte => TagByte_read named
  | cTagShort => TagShort_read named
  | cTagInt => TagInt_read named
  | cTagLong => TagLong_read named
  | cTagFloat => TagFloat_read named
  | cTagDouble => TagDouble_read named
  | cTagByteArray => TagByteArray_read named
  | cTagString => TagString_read named
  | cTagIntArray => TagIntArray_read named
  | cTagLongArray => TagLongArray_read named
  | cTagList =>
    match fuel with
    | O => diverge
    | S f => TagList_read_with (class_read f) named
    end
  | cTagCompound =>
    match fuel with
    | O => diverge
    | S f => TagCompound_read_with (Tag_create_with (class_read f)) f named
    end
  end.

(** [Tag.create] *)
Definition Tag_create (fuel : nat) : M Tag := Tag_create_with (class_read fuel).

(** [TagList.read] *)
Definition TagList_read (fuel : nat) : bool -> M Tag := TagList_read_with (class_read fuel).

(** [TagCompound.read] *)
Definition TagCompound_read (fuel : nat) : bool -> M Tag :=
  TagCompound_read_with (Tag_create fuel) fuel.

(** *** Encoding *)

(** [self.name] of a tag that has one. *)
Definition Tag_name (t : Tag) : option (option PyStr) :=
  match t with
  | TagEnd => None
  | TagByte n _ | TagShort n _ | TagInt n _ | TagLong n _ | TagFloat n _
  | TagDouble n _ | TagByteArray n _ | TagString n _ | TagList n _
  | TagCompound n _ | TagIntArray n _ | TagLongArray n _ => Some n
  end.

Definition oconcat (l : Outcome (list bytes)) : Outcome bytes :=
  obind l (fun bs => Ok (List.concat bs)).

(** [a + b] on two byte strings, each computed in turn. *)
Definition oapp (a b : Outcome bytes) : Outcome bytes :=
  obind a (fun x => obind b (fun y => Ok (x ++ y))).

(** [struct.pack(">h", len(self.name)) + self.name.encode("utf-8")]:
    [len(None)] is a [TypeError]. *)
Definition name_header (n : option PyStr) : Outcome bytes :=
  match n with
  | None => Raise TypeError
  | Some s => oapp (pack_h (len s)) (utf8_encode s)
  end.

(** [Tag.build], over the [write] method of the tag's class. *)
Definition Tag_build_with (write : Tag -> Outcome bytes) (t : Tag) : Outcome bytes :=
  obind (pack_b (TAG_ID (class_of t))) (fun head =>
  obind (match Tag_name t with
         | None => Ok head
         | Some n => obind (name_header n) (fun h => Ok (head ++ h))
         end) (fun head' =>
  obind (write t) (fun body => Ok (head' ++ body)))).

(** The [write] of the three array classes: the elements are packed first,
    then the length. *)
Definition array_write (width : nat) (payload : list Z) : Outcome bytes :=
  obind (oconcat (all_ok (map (pack_signed width) payload))) (fun d =>
  obind (pack_i (len payload)) (fun l => Ok (l ++ d))).

(** [all(isinstance(tag, tag_type) for tag in self.payload)]: every class
    derives from [Tag] directly, so an instance of a class is an object
    of exactly that class. *)
Definition all_isinstance (tag_type : TagClass) (payload : list Tag) : bool :=
  forallb (fun tag => TagClass_eqb (class_of tag) tag_type) payload.

(** The method [write] of each class.  The recursion follows the tree, so
    it always finishes here; the interpreter stops it with
    [RecursionError] on a tree nested deeper than it allows, and no
    outcome of this function stands for that.  The properties of [write]
    and [build] on nested trees are therefore stated for the bytes they
    returned, or exclude particular exceptions. *)
Fixpoint Tag_write (t : Tag) : Outcome bytes :=
  match t with
  | TagEnd => Ok []
  | TagByte _ payload => pack_b payload
  | TagShort _ payload => pack_h payload
  | TagInt _ payload => pack_i payload
  | TagLong _ payload => pack_q payload
  | TagFloat _ payload => pack_float 4 payload
  | TagDouble _ payload => pack_float 8 payload
  | TagByteArray _ payload => array_write 1 payload
  | TagString _ payload => oapp (pack_h (len payload)) (utf8_encode payload)
  | TagList _ payload =>
    match payload with
    | [] => Ok [x00]
    | first :: _ =>
      let tag_type := class_of first in
      if all_isinstance tag_type payload
      then oapp (Ok [byte_of_Z (TAG_ID tag_type)])
             (oapp (pack_i (len payload))
                (oconcat (all_ok (map Tag_write payload))))
      else Raise ValueError
    end
  | TagCompound _ payload =>
    (* the second operand is [TagEnd().build()], with [TagEnd.write] inlined *)
    oapp (oconcat (all_ok (map (Tag_build_with Tag_write) payload)))
         (Tag_build_with (fun _ => Ok []) TagEnd)
  | TagIntArray _ payload => array_write 4 payload
  | TagLongArray _ payload => array_write 8 payload
  end.

(** [Tag.build] *)
Definition Tag_build : Tag -> Outcome bytes := Tag_build_with Tag_write.

(** *** The structural dump *)

(** The values [__json__] builds: numbers, strings, [None], lists, and
    dictionaries with their keys in insertion order. *)
Inductive PyVal : Type :=
| VInt (z : Z)
| VFloat (bits : Z)
| VStr (s : PyStr)
| VNone
| VList (l : list PyVal)
| VDict (items : list (string * PyVal)).

(** [d[key]] *)
Fixpoint dict_items_get (key : string) (items : list (string * PyVal)) : Outcome PyVal :=
  match items with
  | [] => Raise KeyError
  | (k, v) :: rest => if String.eqb k key then Ok v else dict_items_get key rest
  end.

Definition getitem (v : PyVal) (key : string) : Outcome PyVal :=
  match v with
  | VDict items => dict_items_get key items
  | _ => Raise TypeError
  end.

Definition VName (n : option PyStr) : PyVal :=
  match n with
  | None => VNone
  | Some s => VStr s
  end.

(** The dictionary of a tag with a name and a payload. *)
Definition json_obj (type : string) (n : option PyStr) (payload : PyVal) : PyVal :=
  VDict [("type"%string, VStr (str type)); ("name"%string, VName n);
         ("payload"%string, payload)].

(** The method [__json__] of each class.  In [TagList.__json__] the
    variable [tag_type] of an empty list is the string ["TAG_End"], whose
    attribute [TAG_NAME] does not exist. *)
Fixpoint Tag_json (t : Tag) : Outcome PyVal :=
  match t with
  | TagEnd => Ok (VDict [("type"%string, VStr (str "TAG_End"))])
  | TagByte n p => Ok (json_obj "TAG_Byte" n (VInt p))
  | TagShort n p => Ok (json_obj "TAG_Short" n (VInt p))
  | TagInt n p => Ok (json_obj "TAG_Int" n (VInt p))
  | TagLong n p => Ok (json_obj "TAG_Long" n (VInt p))
  | TagFloat n p => Ok (json_obj "TAG_Float" n (VFloat p))
  | TagDouble n p => Ok (json_obj "TAG_Double" n (VFloat p))
  | TagByteArray n p => Ok (json_obj "TAG_ByteArray" n (VList (map VInt p)))
  | TagString n p => Ok (json_obj "TAG_String" n (VStr p))
  | TagList n payload =>
    obind (match payload with
           | [] => Raise AttributeError
           | first :: _ => Ok (TAG_NAME (class_of first))
           end) (fun data_type =>
    obind (all_ok (map (fun tag => obind (Tag_json tag)
                                     (fun j => getitem j "payload")) payload))
      (fun elems =>
         Ok (VDict [("type"%string, VStr (str "TAG_List"));
                    ("name"%string, VName n);
                    ("data_type"%string, VStr (str data_type));
                    ("payload"%string, VList elems)])))
  | TagCompound n payload =>
    obind (all_ok (map Tag_json payload)) (fun children =>
      Ok (json_obj "TAG_Compound" n (VList children)))
  | TagIntArray n p => Ok (json_obj "TAG_IntArray" n (VList (map VInt p)))
  | TagLongArray n p => Ok (json_obj "TAG_LongArray" n (VList (map VInt p)))
  end.

(* ================================================================= *)
(** ** nbt.py: the document *)

Record NBT : Type := mkNBT { nbt_data : bytes; tags : list Tag }.

(** The loop of [NBT.read]: [while stream.alive(): tags.append(...)];
    [n] bounds the number of iterations. *)
Fixpoint read_loop (create : M Tag) (n : nat) (acc : list Tag) : M (list Tag) :=
  match n with
  | O => diverge
  | S k =>
    fun s =>
      if Stream_alive s
      then (tag <- create ;; read_loop create k (acc ++ [tag])) s
      else (Ok acc, s)
  end.

(** [NBT.read], on an object whose [tags] are still empty. *)
Definition NBT_read (fuel : nat) (d : bytes) : Outcome (list Tag) :=
  fst (read_loop (Tag_create fuel) (S fuel) [] (Stream_init d)).

(** [NBT(data)] *)
Definition NBT_init (fuel : nat) (d : bytes) : Outcome NBT :=
  obind (NBT_read fuel d) (fun ts => Ok (mkNBT d ts)).

(** [NBT.build]: the bytes returned, which also become [self.data]. *)
Definition NBT_build (self : NBT) : Outcome (bytes * NBT) :=
  obind (oconcat (all_ok (map Tag_build (tags self)))) (fun d =>
    Ok (d, mkNBT d (tags self))).

(** [NBT.dict] *)
Definition NBT_dict (self : NBT) : Outcome (list PyVal) :=
  all_ok (map Tag_json (tags self)).

(* ================================================================= *)
(** ** nbt_tag.py: the text of an array

    [__repr__] of the three array classes.  The texts that Python's
    [repr], [str] and [hex] give for a name and for a number are taken as
    functions [repr_name], [str_int] and [fmt]; the loop variable [value]
    is unbound after a loop over nothing, and reading it is Python's
    [UnboundLocalError]. *)
Inductive ReprOutcome : Type :=
| ReprText (text : string)
| UnboundLocalError.

(** The value the loop variable holds after [for value in l]. *)
Definition loop_variable (l : list Z) : option Z := List.last (map Some l) None.

Definition array_repr (label : string) (repr_name : option PyStr -> string)
    (str_int : Z -> string) (fmt : Z -> string)
    (name : option PyStr) (payload : list Z) : ReprOutcome :=
  let console :=
    (label ++ "(" ++ repr_name name ++ ") (entries: "
     ++ str_int (len payload) ++ ")" ++ String (ascii_of_nat 10) "[")%string in
  let shown := py_slice payload 0 (-1) in
  let console' :=
    fold_left (fun c v => (c ++ fmt v ++ ", ")%string) shown console in
  match loop_variable shown with
  | None => UnboundLocalError
  | Some value => ReprText (console' ++ fmt value ++ "]")%string
  end.

(** [TagByteArray.__repr__], [TagIntArray.__repr__], [TagLongArray.__repr__] *)
Definition TagByteArray_repr (repr_name : option PyStr -> string)
    (str_int hex : Z -> string) : option PyStr -> list Z -> ReprOutcome :=
  array_repr "TAG_ByteArray" repr_name str_int hex.

Definition TagIntArray_repr (repr_name : option PyStr -> string)
    (str_int repr_int : Z -> string) : option PyStr -> list Z -> ReprOutcome :=
  array_repr "TAG_IntArray" repr_name str_int repr_int.

Definition TagLongArray_repr (repr_name : option PyStr -> string)
    (str_int repr_int : Z -> string) : option PyStr -> list Z -> ReprOutcome :=
  array_repr "TAG_LongArray" repr_name str_int repr_int.

(* ================================================================= *)
(** ** The vocabulary of the properties *)

(** The position of a stream lies within its buffer. *)
Definition Stream_inv (s : Stream) : Prop := 0 <= index s <= len (data s).

(** The operations of the cursor that take a size, and a run of them.  A
    caller may catch [EOFError] and go on, so a run continues after a
    failed operation. *)
Inductive StreamOp : Type :=
| OpRead (size : Z)
| OpPeek (size : Z).

Definition op_size (op : StreamOp) : Z :=
  match op with
  | OpRead n => n
  | OpPeek n => n
  end.

Definition run_op (s : Stream) (op : StreamOp) : Stream :=
  match op with
  | OpRead n => snd (Stream_read n s)
  | OpPeek n => snd (Stream_peek n s)
  end.

Definition run_ops (ops : list StreamOp) (s : Stream) : Stream :=
  fold_left run_op ops s.

(** [tag.TAG_ID == TagEnd.TAG_ID], the test of the compound loop. *)
Definition is_End (t : Tag) : bool := TAG_ID (class_of t) =? TAG_ID cTagEnd.

(** [creates create s ts s']: from the stream [s], successive calls of
    [create] return the tags [ts], none of them a [TagEnd], in this order,
    and leave the stream [s']. *)
Inductive creates (create : M Tag) : Stream -> list Tag -> Stream -> Prop :=
| creates_nil (s : Stream) : creates create s [] s
| creates_cons (s s1 s2 : Stream) (t : Tag) (ts : list Tag) :
    create s = (Ok t, s1) -> t <> TagEnd -> creates create s1 ts s2 ->
    creates create s (t :: ts) s2.


(** [refines c c']: whatever [c] returns or raises, [c'] returns or raises
    as well, with the same final stream; [c'] may also finish where [c]
    runs out of fuel. *)
Definition refines {A : Type} (c c' : M A) : Prop :=
  forall s o s', c s = (o, s') -> o <> Diverge -> c' s = (o, s').

(** A sample document: the compound named [""] that holds the byte
    [a = 5] and the list [l = [1, 2]] of shorts. *)
Definition sample_bytes : bytes :=
  [x0a; x00; x00;
   x01; x00; x01; x61; x05;
   x09; x00; x01; x6c; x02; x00; x00; x00; x02; x00; x01; x00; x02;
   x00].

Definition sample_tags : list Tag :=
  [TagCompound (Some [])
     [TagByte (Some [97]) 5;
      TagList (Some [108]) [TagShort None 1; TagShort None 2]]].

(** [NBT.add] *)
Definition NBT_add (self : NBT) (tag : Tag) : NBT :=
  mkNBT (nbt_data self) (tags self ++ [tag]).

(** The bytes of the buffer from the position on, and the stream moved
    forward by [n] bytes. *)
Definition remaining (s : Stream) : bytes := skipn (Z.to_nat (index s)) (data s).

Definition advance (s : Stream) (n : Z) : Stream := mkStream (data s) (index s + n).

(** [parses c x a]: wherever the bytes [x] come next in a stream whose
    position lies within its buffer, the computation [c] returns [a] and
    leaves the stream just after [x]. *)
Definition parses {A : Type} (c : M A) (x : bytes) (a : A) : Prop :=
  forall (s : Stream) (r : bytes),
    Stream_inv s -> remaining s = x ++ r -> c s = (Ok a, advance s (len x)).

(** The trees the codec carries through [build] and back.  A name is a
    string of ASCII characters short enough for its length prefix, and is
    present exactly where the decoder stores one: on a tag read with its
    name, and, as the empty string, on a byte read as an element of a
    list.  Integers lie in the range of their format, a list is not empty
    and holds objects of one class, and the classes left out are [TagEnd],
    the two classes of floats and the two array classes whose readers do
    not return. *)
Definition is_ascii (s : PyStr) : bool :=
  forallb (fun c => (0 <=? c) && (c <? 128)) s.

Definition str_ok (s : PyStr) : bool := is_ascii s && (len s <? 32768).

Definition in_range (n : nat) (v : Z) : bool :=
  (- 2 ^ (8 * Z.of_nat n - 1) <=? v) && (v <? 2 ^ (8 * Z.of_nat n - 1)).

Definition name_ok (named : bool) (c : TagClass) (n : option PyStr) : bool :=
  match n with
  | Some s =>
    if named then str_ok s
    else TagClass_eqb c cTagByte && match s with [] => true | _ => false end
  | None => negb named && negb (TagClass_eqb c cTagByte)
  end.

Fixpoint codec_ok (named : bool) (t : Tag) : bool :=
  match t with
  | TagByte n p => name_ok named cTagByte n && in_range 1 p
  | TagShort n p => name_ok named cTagShort n && in_range 2 p
  | TagInt n p => name_ok named cTagInt n && in_range 4 p
  | TagLong n p => name_ok named cTagLong n && in_range 8 p
  | TagByteArray n p =>
    name_ok named cTagByteArray n && forallb (in_range 1) p
    && (len p <? 2 ^ 31)
  | TagString n p => name_ok named cTagString n && str_ok p
  | TagList n p =>
    name_ok named cTagList n
    && match p with
       | [] => false
       | first :: _ =>
         all_isinstance (class_of first) p && forallb (codec_ok false) p
         && (len p <? 2 ^ 31)
       end
  | TagCompound n p => name_ok named cTagCompound n && forallb (codec_ok true) p
  | _ => false
  end.

(** The tags a container holds. *)
Definition children (t : Tag) : list Tag :=
  match t with
  | TagList _ p => p
  | TagCompound _ p => p
  | _ => []
  end.

(** The bytes [Tag.build] puts between the type id and the payload; a tag
    written as an element of a list has none. *)
Definition name_bytes (named : bool) (t : Tag) : Outcome bytes :=
  if named
  then match Tag_name t with
       | Some n => name_header n
       | None => Ok []
       end
  else Ok [].


(** The shape of what the decoder returns.  A tag read with its name has
    one, a tag read as an element of a list has [None], or the empty
    string if it is a byte; integers lie in the range of their format; the
    elements of a list are objects of one class, which is not [TagEnd];
    no child of a compound is a [TagEnd]; an [IntArray] or a [LongArray]
    is an empty element of a list. *)
Definition name_shape (named : bool) (n : option PyStr) : bool :=
  match n with
  | Some _ => named
  | None => negb named
  end.

Fixpoint decoded_shape (named : bool) (t : Tag) : bool :=
  match t with
  | TagEnd => named
  | TagByte n p =>
    match n with
    | Some s => named || match s with [] => true | _ => false end
    | None => false
    end && in_range 1 p
  | TagShort n p => name_shape named n && in_range 2 p
  | TagInt n p => name_shape named n && in_range 4 p
  | TagLong n p => name_shape named n && in_range 8 p
  | TagFloat n _ => name_shape named n
  | TagDouble n _ => name_shape named n
  | TagByteArray n p => name_shape named n && forallb (in_range 1) p
  | TagString n _ => name_shape named n
  | TagList n p =>
    name_shape named n
    && match p with
       | [] => true
       | first :: _ =>
         negb (is_End first) && all_isinstance (class_of first) p
         && forallb (decoded_shape false) p
       end
  | TagCompound n p =>
    name_shape named n
    && forallb (fun c => negb (is_End c) && decoded_shape true c) p
  | TagIntArray n p | TagLongArray n p =>
    negb named
    && match n with None => true | Some _ => false end
    && match p with [] => true | _ => false end
  end.

(** No list anywhere in the tree is empty. *)
Fixpoint no_empty_list (t : Tag) : bool :=
  match t with
  | TagList _ p =>
    match p with
    | [] => false
    | _ => forallb no_empty_list p
    end
  | TagCompound _ p => forallb no_empty_list p
  | _ => true
  end.

(** The number of payload bytes of the four integer classes. *)
Definition scalar_width (c : TagClass) : option nat :=
  match c with
  | cTagByte => Some 1%nat
  | cTagShort => Some 2%nat
  | cTagInt => Some 4%nat
  | cTagLong => Some 8%nat
  | _ => None
  end.

(** A byte read as a signed number. *)
Definition signed_byte (b : byte) : Z := to_signed 8 (byte_val b).

(** [only_raises o P]: the computation finished, and if it raised an
    exception, the exception satisfies [P]. *)
Definition only_raises {A : Type} (o : Outcome A) (P : PyExc -> Prop) : Prop :=
  match o with
  | Ok _ => True
  | Raise e => P e
  | Diverge => False
  end.

(** The exceptions of [struct.pack] and of [str.encode]. *)
Definition encode_error (e : PyExc) : Prop :=
  e = StructError \/ e = UnicodeEncodeError.

(** [proper_prefix x' x]: the bytes [x] cut short, with at least one byte
    missing at the end. *)
Definition proper_prefix (x' x : bytes) : Prop :=
  exists y : bytes, y <> [] /\ x = x' ++ y.

(** [cut_short c x]: on a stream whose buffer ends after a proper prefix
    of [x], the computation [c] raises [EOFError]. *)
Definition cut_short {A : Type} (c : M A) (x : bytes) : Prop :=
  forall (s : Stream) (x' : bytes),
    Stream_inv s -> remaining s = x' -> proper_prefix x' x ->
    exists s', c s = (Raise EOFError, s').

(** [good c x a]: [c] reads [a] from [x] wherever [x] comes next, and
    raises [EOFError] wherever the buffer ends inside [x]. *)
Definition good {A : Type} (c : M A) (x : bytes) (a : A) : Prop :=
  parses c x a /\ cut_short c x.


(* ================================================================= *)
(** * Properties *)

(** ** Slices and the stream *)

Lemma len_nonneg {A : Type} (l : list A) : 0 <= len l.
Proof. unfold len. lia. Qed.

Lemma adjust_index_range (n i : Z) : 0 <= n -> 0 <= adjust_index n i <= n.
Proof.
  intros Hn. unfold adjust_index.
  destruct (i <? 0) eqn:E1.
  - destruct (i + n <? 0) eqn:E2; lia.
  - destruct (n <? i) eqn:E2; lia.
Qed.

Lemma adjust_index_id (n i : Z) : 0 <= i <= n -> adjust_index n i = i.
Proof.
  intros H. unfold adjust_index.
  destruct (i <? 0) eqn:E1; [lia|].
  destruct (n <? i) eqn:E2; lia.
Qed.

(** The number of elements of a slice. *)
Lemma py_slice_len {A : Type} (l : list A) (a b : Z) :
  len (py_slice l a b)
  = Z.max 0 (adjust_index (len l) b - adjust_index (len l) a).
Proof.
  unfold py_slice.
  pose proof (adjust_index_range (len l) a (len_nonneg l)) as Ha.
  pose proof (adjust_index_range (len l) b (len_nonneg l)) as Hb.
  unfold len in *.
  rewrite length_firstn, length_skipn. lia.
Qed.

Lemma len_nil_inv {A : Type} (l : list A) : len l = 0 -> l = [].
Proof. destruct l; [reflexivity | unfold len; simpl; lia]. Qed.

(** Within the buffer, [read] returns exactly [n] bytes. *)
Lemma py_slice_exact {A : Type} (l : list A) (i n : Z) :
  0 <= i -> 0 <= n -> i + n <= len l -> len (py_slice l i (i + n)) = n.
Proof.
  intros Hi Hn Hle. rewrite py_slice_len.
  rewrite !adjust_index_id by lia. lia.
Qed.

Lemma Stream_init_inv (d : bytes) : Stream_inv (Stream_init d).
Proof. unfold Stream_inv, Stream_init; simpl. pose proof (len_nonneg d). lia. Qed.

Lemma Stream_read_ok (n : Z) (s : Stream) :
  index s + n <= len (data s) ->
  Stream_read n s
  = (Ok (py_slice (data s) (index s) (index s + n)),
     mkStream (data s) (index s + n)).
Proof.
  intros H. unfold Stream_read.
  destruct (len (data s) <? index s + n) eqn:E; [lia | reflexivity].
Qed.

Lemma Stream_read_eof (n : Z) (s : Stream) :
  len (data s) < index s + n -> Stream_read n s = (Raise EOFError, s).
Proof.
  intros H. unfold Stream_read.
  destruct (len (data s) <? index s + n) eqn:E; [reflexivity | lia].
Qed.

Lemma Stream_read_inv (n : Z) (s : Stream) (o : Outcome bytes) (s' : Stream) :
  Stream_read n s = (o, s') ->
  (len (data s) < index s + n /\ o = Raise EOFError /\ s' = s)
  \/ (index s + n <= len (data s)
      /\ o = Ok (py_slice (data s) (index s) (index s + n))
      /\ s' = mkStream (data s) (index s + n)).
Proof.
  unfold Stream_read.
  destruct (len (data s) <? index s + n) eqn:E; intros H; inversion H; subst.
  - left. split; [lia | auto].
  - right. split; [lia | auto].
Qed.

Lemma run_op_nonneg (s : Stream) (op : StreamOp) :
  Stream_inv s -> 0 <= op_size op ->
  Stream_inv (run_op s op) /\ index s <= index (run_op s op)
  /\ data (run_op s op) = data s.
Proof.
  unfold Stream_inv. intros Hinv Hn.
  destruct op as [n | n]; simpl in *.
  - unfold Stream_read.
    destruct (len (data s) <? index s + n) eqn:E; simpl; repeat split; lia.
  - unfold Stream_peek.
    destruct (len (data s) <? index s + n) eqn:E; simpl; repeat split; lia.
Qed.

Lemma run_ops_nonneg (ops : list StreamOp) (s : Stream) :
  Stream_inv s -> Forall (fun op => 0 <= op_size op) ops ->
  Stream_inv (run_ops ops s) /\ index s <= index (run_ops ops s)
  /\ data (run_ops ops s) = data s.
Proof.
  revert s. induction ops as [| op ops IH]; intros s Hinv Hall.
  - simpl. repeat split; [apply Hinv | apply Hinv | lia].
  - inversion Hall as [| ? ? Hop Hrest]; subst.
    destruct (run_op_nonneg s op Hinv Hop) as (Hinv1 & Hle1 & Hd1).
    destruct (IH (run_op s op) Hinv1 Hrest) as (Hinv2 & Hle2 & Hd2).
    simpl. fold (run_ops ops (run_op s op)).
    repeat split; try apply Hinv2; [lia | congruence].
Qed.

(** C9, as amended.  Over a buffer [d], after any run [ops1] of reads and
    peeks of non-negative sizes and at any later time (after [ops2] more),
    the position stays within [0 .. len d] and has not decreased.  And at
    any such time, for a size [n] of either sign: [read(n)] fails, with
    [EOFError], exactly when [position + n > len d]; a failed read leaves
    the stream as it was; a successful one moves the position by exactly
    [n], and for [n >= 0] it returns exactly [n] bytes. *)
Theorem Stream_position_forward (d : bytes) (ops1 ops2 : list StreamOp)
    (Hsizes : Forall (fun op => 0 <= op_size op) (ops1 ++ ops2)) :
  let s1 := run_ops ops1 (Stream_init d) in
  let s2 := run_ops ops2 s1 in
  (0 <= index s1 <= len d) /\ (0 <= index s2 <= len d)
  /\ index s1 <= index s2
  /\ data s1 = d
  /\ forall n : Z,
       (len d < index s1 + n <-> exists e, fst (Stream_read n s1) = Raise e)
       /\ (forall e s', Stream_read n s1 = (Raise e, s') ->
             e = EOFError /\ s' = s1)
       /\ (forall r s', Stream_read n s1 = (Ok r, s') ->
             index s' = index s1 + n /\ data s' = d
             /\ (0 <= n -> len r = n)).
Proof.
  intros s1 s2.
  apply Forall_app in Hsizes. destruct Hsizes as [H1 H2].
  destruct (run_ops_nonneg ops1 (Stream_init d) (Stream_init_inv d) H1)
    as (Hinv1 & _ & Hd1).
  fold s1 in Hinv1, Hd1. simpl in Hd1.
  destruct (run_ops_nonneg ops2 s1 Hinv1 H2) as (Hinv2 & Hle & Hd2).
  fold s2 in Hinv2, Hle, Hd2.
  unfold Stream_inv in *. rewrite Hd2, Hd1 in Hinv2. rewrite Hd1 in Hinv1.
  repeat split; try lia; try assumption.
  - intros Hgt. exists EOFError. rewrite Stream_read_eof; [reflexivity | ].
    rewrite Hd1. exact Hgt.
  - intros [e He].
    destruct (Stream_read n s1) as [o s'] eqn:E.
    apply Stream_read_inv in E. simpl in He. subst o.
    destruct E as [(Hlt & _) | (_ & Hok & _)]; [ | discriminate].
    rewrite Hd1 in Hlt. exact Hlt.
  - apply Stream_read_inv in H.
    destruct H as [(_ & Ho & _) | (_ & Ho & _)]; congruence.
  - apply Stream_read_inv in H.
    destruct H as [(_ & _ & Hs) | (_ & Ho & _)]; [assumption | discriminate].
  - apply Stream_read_inv in H.
    destruct H as [(_ & Ho & _) | (_ & _ & Hs)]; [discriminate | ].
    subst s'. reflexivity.
  - apply Stream_read_inv in H.
    destruct H as [(_ & Ho & _) | (_ & _ & Hs)]; [discriminate | ].
    subst s'. simpl. exact Hd1.
  - intros Hn. apply Stream_read_inv in H.
    destruct H as [(_ & Ho & _) | (Hle' & Ho & _)]; [discriminate | ].
    inversion Ho; subst r.
    apply py_slice_exact; try lia.
Qed.

Lemma Stream_position_forward_witness :
  let d := [x01; x02; x03; x04] in
  let s1 := run_ops [OpRead 1; OpPeek 2] (Stream_init d) in
  let s2 := run_ops [OpRead 9; OpRead 3] s1 in
  index s1 = 1 /\ index s2 = 4 /\ index s1 <= index s2.
Proof.
  intros d s1 s2.
  assert (Hsizes : Forall (fun op => 0 <= op_size op)
                     ([OpRead 1; OpPeek 2] ++ [OpRead 9; OpRead 3])).
  { repeat constructor; simpl; lia. }
  pose proof (Stream_position_forward d _ _ Hsizes) as H.
  destruct H as (_ & _ & Hle & _).
  split; [reflexivity | split; [reflexivity | exact Hle]].
Defined.

(** C9, as stated, fails: a read of negative size passes the bounds test
    and moves the position backwards, below zero here.  [read_string]
    makes such a read on the length prefix [ff fd] (-3). *)
Lemma Stream_position_counterexample :
  let d := [xff; xfd; x41; x42; x43] in
  Stream_inv (mkStream d 2)
  /\ Stream_read (-3) (mkStream d 2) = (Ok [x41; x42], mkStream d (-1))
  /\ snd (read_string (Stream_init d)) = mkStream d (-1)
  /\ ~ Stream_inv (mkStream d (-1)).
Proof.
  intros d. repeat split; try (vm_compute; congruence).
  unfold Stream_inv. simpl. lia.
Qed.

(** ** [read_string] on a negative length prefix *)

Lemma bind_ok {A B : Type} (c : M A) (k : A -> M B) (s s' : Stream) (a : A) :
  c s = (Ok a, s') -> bind c k s = k a s'.
Proof. intros H. unfold bind. rewrite H. reflexivity. Qed.

Lemma bind_raise {A B : Type} (c : M A) (k : A -> M B) (s s' : Stream) (e : PyExc) :
  c s = (Raise e, s') -> bind c k s = (Raise e, s').
Proof. intros H. unfold bind. rewrite H. reflexivity. Qed.

Lemma lift_ok {A : Type} (o : Outcome A) (a : A) (s : Stream) :
  o = Ok a -> lift o s = (Ok a, s).
Proof. intros ->. reflexivity. Qed.

(** C10, as amended.  When the two bytes [read_string] reads first are a
    negative length [p]: the read of [p] bytes passes the bounds test and
    moves the index back by [-p]; the bytes it returns are the slice
    [data[i : i + p]], which is empty unless [i >= 0], [i + p < 0] and
    [len data + p > 0], where the negative stop counts from the end of the
    buffer and the slice holds [len data + p] bytes; [read_string] returns
    (or raises) what decoding that slice gives, so it returns the empty
    string without error whenever the slice is empty. *)
Theorem read_string_negative_prefix (s s1 : Stream) (b : bytes) (p : Z)
    (Hread : Stream_read 2 s = (Ok b, s1))
    (Hp : unpack_h b = Ok p)
    (Hneg : p < 0) :
  let i := index s1 in
  let n := len (data s) in
  let s2 := mkStream (data s) (i + p) in
  exists r : bytes,
    Stream_read p s1 = (Ok r, s2)
    /\ i = index s + 2 /\ index s2 < i
    /\ len r = (if (0 <=? i) && (i + p <? 0) && (0 <? n + p) then n + p else 0)
    /\ read_string s = (utf8_decode r, s2)
    /\ (len r = 0 -> read_string s = (Ok [], s2)).
Proof.
  intros i n s2.
  apply Stream_read_inv in Hread.
  destruct Hread as [(_ & Ho & _) | (Hle & Ho & Hs1)]; [discriminate | ].
  inversion Ho; subst b; clear Ho.
  assert (Hi : i = index s + 2) by (unfold i; rewrite Hs1; reflexivity).
  assert (Hd : data s1 = data s) by (rewrite Hs1; reflexivity).
  set (r := py_slice (data s1) (index s1) (index s1 + p)).
  assert (Hrd : Stream_read p s1 = (Ok r, s2)).
  { rewrite Stream_read_ok by (rewrite Hd; fold i; lia).
    unfold s2, r, i. rewrite Hd. reflexivity. }
  assert (Hrs : read_string s = (utf8_decode r, s2)).
  { unfold read_string.
    rewrite (bind_ok _ _ s s1 (py_slice (data s) (index s) (index s + 2)))
      by (rewrite Stream_read_ok by lia; rewrite Hs1; reflexivity).
    rewrite (bind_ok _ _ s1 s1 p) by (apply lift_ok; exact Hp).
    rewrite (bind_ok _ _ s1 s2 r) by exact Hrd.
    reflexivity. }
  exists r. repeat split; try assumption.
  - unfold s2. simpl. lia.
  - unfold r. rewrite py_slice_len. rewrite Hd. fold i n.
    pose proof (len_nonneg (data s)) as Hn. fold n in Hn.
    assert (Hin : i <= n) by (unfold n; lia).
    unfold adjust_index.
    destruct (0 <=? i) eqn:E1; destruct (i + p <? 0) eqn:E2;
      destruct (0 <? n + p) eqn:E3; simpl;
      destruct (i <? 0) eqn:E4; destruct (i + n <? 0) eqn:E5;
      destruct (n <? i) eqn:E6; destruct (i + p + n <? 0) eqn:E7;
      destruct (n <? i + p) eqn:E8; lia.
  - intros H0. rewrite Hrs. apply len_nil_inv in H0. rewrite H0. reflexivity.
Qed.

Lemma read_string_negative_prefix_witness :
  let d := [x00; xff; xfe; x41] in
  unpack_h [xff; xfe] = Ok (-2)
  /\ read_string (mkStream d 1) = (Ok [], mkStream d 1).
Proof.
  intros d.
  assert (Hread : Stream_read 2 (mkStream d 1) = (Ok [xff; xfe], mkStream d 3))
    by reflexivity.
  assert (Hp : unpack_h [xff; xfe] = Ok (-2)) by reflexivity.
  assert (Hneg : -2 < 0) by lia.
  destruct (read_string_negative_prefix _ _ _ _ Hread Hp Hneg)
    as (r & _ & _ & _ & Hlen & _ & Hempty).
  split; [exact Hp | ].
  apply Hempty. rewrite Hlen. reflexivity.
Defined.

(** C10, as stated, fails: on the prefix [ff fd] (-3) at the start of a
    buffer of five bytes the slice is [data[2:-1]], two bytes, and
    [read_string] returns a string of two characters or, when the bytes
    are not UTF-8, raises [UnicodeDecodeError]. *)
Lemma read_string_negative_prefix_counterexample :
  unpack_h [xff; xfd] = Ok (-3)
  /\ read_string (Stream_init [xff; xfd; x41; x42; x43])
     = (Ok [65; 66], mkStream [xff; xfd; x41; x42; x43] (-1))
  /\ read_string (Stream_init [xff; xfd; x80; x80; x43])
     = (Raise UnicodeDecodeError, mkStream [xff; xfd; x80; x80; x43] (-1)).
Proof. repeat split; reflexivity. Qed.

(** ** The registry *)

Lemma TAG_MAP_registered (id : Z) :
  0 <= id <= 12 -> exists c, TAG_MAP id = Some c /\ TAG_ID c = id.
Proof.
  intros H.
  assert (E : id = 0 \/ id = 1 \/ id = 2 \/ id = 3 \/ id = 4 \/ id = 5
              \/ id = 6 \/ id = 7 \/ id = 8 \/ id = 9 \/ id = 10
              \/ id = 11 \/ id = 12) by lia.
  repeat (destruct E as [E | E]; [subst id; eexists; split; reflexivity | ]).
  subst id; eexists; split; reflexivity.
Qed.

Lemma TAG_MAP_unregistered (id : Z) : ~ (0 <= id <= 12) -> TAG_MAP id = None.
Proof.
  intros H. destruct id as [| p | p]; [lia | | reflexivity].
  do 5 (try (destruct p as [p | p |]; try reflexivity; try lia)).
Qed.

Lemma TAG_MAP_Some_ID (id : Z) (c : TagClass) : TAG_MAP id = Some c -> TAG_ID c = id.
Proof.
  intros H.
  assert (Hr : 0 <= id <= 12 \/ ~ (0 <= id <= 12)) by lia.
  destruct Hr as [Hr | Hr].
  - destruct (TAG_MAP_registered id Hr) as (c' & Hc' & Hid). congruence.
  - rewrite TAG_MAP_unregistered in H by exact Hr. discriminate.
Qed.

(** C8.  When the byte [Tag.create] reads as the type id is not one of
    the ids 0 to 12 of [TAG_MAP], it raises [NotImplementedError] for that
    id, and the stream is left just after that one byte. *)
Theorem Tag_create_unknown_type (fuel : nat) (s s1 : Stream) (b : byte) (rest : bytes)
    (Hread : Stream_read 1 s = (Ok (b :: rest), s1))
    (Hunk : ~ (0 <= byte_val b <= 12)) :
  Tag_create fuel s = (Raise (NotImplementedError (byte_val b)), s1)
  /\ index s1 = index s + 1 /\ data s1 = data s.
Proof.
  split.
  - unfold Tag_create, Tag_create_with.
    rewrite (bind_ok _ _ s s1 (b :: rest)) by exact Hread.
    rewrite (bind_ok _ _ s1 s1 (byte_val b)) by reflexivity.
    rewrite TAG_MAP_unregistered by exact Hunk. reflexivity.
  - apply Stream_read_inv in Hread.
    destruct Hread as [(_ & Ho & _) | (_ & _ & Hs)]; [discriminate | ].
    subst s1. split; reflexivity.
Qed.

Lemma Tag_create_unknown_type_witness :
  Tag_create 0 (Stream_init [x0d; x00; x00])
  = (Raise (NotImplementedError 13), mkStream [x0d; x00; x00] 1).
Proof.
  assert (Hread : Stream_read 1 (Stream_init [x0d; x00; x00])
                  = (Ok [x0d], mkStream [x0d; x00; x00] 1)) by reflexivity.
  assert (Hunk : ~ (0 <= byte_val x0d <= 12)) by (unfold byte_val; simpl; lia).
  exact (proj1 (Tag_create_unknown_type 0 _ _ _ _ Hread Hunk)).
Defined.

(** ** Compounds *)

Lemma bind_inv_ok {A B : Type} (c : M A) (k : A -> M B) (s s' : Stream) (b : B) :
  bind c k s = (Ok b, s') ->
  exists a s1, c s = (Ok a, s1) /\ k a s1 = (Ok b, s').
Proof.
  unfold bind. destruct (c s) as [[a | e |] s1]; intros H; try discriminate.
  exists a, s1. split; [reflexivity | exact H].
Qed.

Lemma ret_inv {A : Type} (a b : A) (s s' : Stream) :
  ret a s = (Ok b, s') -> a = b /\ s = s'.
Proof. unfold ret. intros H. inversion H. split; reflexivity. Qed.

(** Splits a successful run of a sequence of binds into its steps. *)
Ltac bind_inv H :=
  match type of H with
  | bind _ _ _ = (Ok _, _) =>
    let a := fresh "a" in
    let s := fresh "s" in
    let H1 := fresh "Hstep" in
    apply bind_inv_ok in H; destruct H as (a & s & H1 & H);
    cbv beta in H; bind_inv H
  | ret _ _ = (Ok _, _) =>
    let E1 := fresh "E" in
    let E2 := fresh "E" in
    apply ret_inv in H; destruct H as [E1 E2]
  | _ => idtac
  end.

Lemma is_End_true (t : Tag) : is_End t = true <-> t = TagEnd.
Proof.
  split.
  - destruct t; unfold is_End; simpl; intros H; try discriminate; reflexivity.
  - intros ->. reflexivity.
Qed.

Lemma is_End_false (t : Tag) : is_End t = false <-> t <> TagEnd.
Proof.
  split.
  - intros H E. apply is_End_true in E. congruence.
  - intros H. destruct (is_End t) eqn:E; [ | reflexivity].
    apply is_End_true in E. contradiction.
Qed.

Lemma creates_no_End (create : M Tag) (s s' : Stream) (ts : list Tag) :
  creates create s ts s' -> Forall (fun t => t <> TagEnd) ts.
Proof. induction 1; constructor; assumption. Qed.

Lemma compound_loop_S (create : M Tag) (n : nat) (acc : list Tag) :
  compound_loop create (S n) acc
  = (tag <- create ;;
     if is_End tag then ret (rev acc) else compound_loop create n (tag :: acc)).
Proof. reflexivity. Qed.

Lemma compound_loop_step (create : M Tag) (n : nat) (acc : list Tag)
    (s s1 : Stream) (t : Tag) :
  create s = (Ok t, s1) -> t <> TagEnd ->
  compound_loop create (S n) acc s = compound_loop create n (t :: acc) s1.
Proof.
  intros Hc Ht. rewrite compound_loop_S, (bind_ok _ _ s s1 t) by exact Hc.
  apply is_End_false in Ht. rewrite Ht. reflexivity.
Qed.

(** After the tags [ts], whatever ends the loop decides its outcome. *)
Lemma compound_loop_creates (create : M Tag) (s s1 : Stream) (ts : list Tag) :
  creates create s ts s1 ->
  forall (n : nat) (acc : list Tag),
    (List.length ts < n)%nat ->
    (forall s', create s1 = (Ok TagEnd, s') ->
       compound_loop create n acc s = (Ok (rev acc ++ ts), s'))
    /\ (forall e s', create s1 = (Raise e, s') ->
          compound_loop create n acc s = (Raise e, s')).
Proof.
  induction 1 as [s | s s1 s2 t ts Hc Ht Hrest IH]; intros n acc Hn.
  - destruct n as [| n]; [simpl in Hn; lia | ]. split.
    + intros s' He. rewrite compound_loop_S, (bind_ok _ _ s s' TagEnd) by exact He.
      simpl. rewrite app_nil_r. reflexivity.
    + intros e s' He. rewrite compound_loop_S. apply bind_raise. exact He.
  - destruct n as [| n]; [simpl in Hn; lia | ].
    rewrite (compound_loop_step create n acc s s1 t Hc Ht).
    simpl in Hn. assert (Hn' : (List.length ts < n)%nat) by lia.
    destruct (IH n (t :: acc) Hn') as [IHok IHerr]. split.
    + intros s' He. rewrite (IHok s' He). simpl. rewrite <- app_assoc. reflexivity.
    + intros e s' He. exact (IHerr e s' He).
Qed.

(** A loop that returns has seen its tags in order and then a [TagEnd]. *)
Lemma compound_loop_sound (create : M Tag) (n : nat) :
  forall (acc : list Tag) (s s' : Stream) (l : list Tag),
    compound_loop create n acc s = (Ok l, s') ->
    exists ts s1,
      l = rev acc ++ ts /\ creates create s ts s1
      /\ create s1 = (Ok TagEnd, s').
Proof.
  induction n as [| n IH]; intros acc s s' l H; [discriminate | ].
  rewrite compound_loop_S in H.
  apply bind_inv_ok in H. destruct H as (t & s1 & Hc & H).
  cbv beta in H. destruct (is_End t) eqn:E.
  - apply is_End_true in E. subst t. apply ret_inv in H. destruct H as [Hl Hs].
    subst. exists [], s. rewrite app_nil_r.
    repeat split; [constructor | exact Hc].
  - apply is_End_false in E. apply IH in H.
    destruct H as (ts & s2 & Hl & Hcr & Hend).
    exists (t :: ts), s2. repeat split.
    + rewrite Hl. simpl. rewrite <- app_assoc. reflexivity.
    + econstructor; eassumption.
    + exact Hend.
Qed.


Lemma repeatM_Forall {A : Type} (P : A -> Prop) (c : M A) :
  (forall s a s', c s = (Ok a, s') -> P a) ->
  forall (n : nat) (s s' : Stream) (l : list A),
    repeatM n c s = (Ok l, s') -> Forall P l /\ List.length l = n.
Proof.
  intros Hc. induction n as [| n IH]; intros s s' l H.
  - apply ret_inv in H. destruct H as [<- _]. split; [constructor | reflexivity].
  - simpl in H. bind_inv H. subst.
    destruct (IH _ _ _ Hstep0) as [HF HL].
    split; [constructor; [eapply Hc; eassumption | exact HF] | simpl; congruence].
Qed.

Lemma creates_Forall (P : Tag -> Prop) (create : M Tag) :
  (forall s t s', create s = (Ok t, s') -> P t) ->
  forall s ts s', creates create s ts s' -> Forall P ts.
Proof.
  intros Hc s ts s'. induction 1; constructor; eauto.
Qed.

Lemma Tag_create_with_inv (rd : TagClass -> bool -> M Tag) (s s' : Stream) (t : Tag) :
  Tag_create_with rd s = (Ok t, s') ->
  exists b s1 c,
    Stream_read 1 s = (Ok b, s1) /\ first_byte b = Ok (TAG_ID c)
    /\ TAG_MAP (TAG_ID c) = Some c /\ rd c true s1 = (Ok t, s').
Proof.
  unfold Tag_create_with. intros H.
  apply bind_inv_ok in H. destruct H as (b & s1 & Hb & H).
  apply bind_inv_ok in H. destruct H as (id & s2 & Hid & H).
  unfold lift in Hid. inversion Hid; subst s2.
  destruct (TAG_MAP id) as [c | ] eqn:E; [ | discriminate].
  pose proof (TAG_MAP_Some_ID id c E) as Hc. subst id.
  exists b, s1, c. repeat split; assumption.
Qed.


(** ** The fuel does not matter *)

Lemma refines_refl {A : Type} (c : M A) : refines c c.
Proof. intros s o s' H _. exact H. Qed.

Lemma refines_trans {A : Type} (c1 c2 c3 : M A) :
  refines c1 c2 -> refines c2 c3 -> refines c1 c3.
Proof. intros H12 H23 s o s' H Ho. apply H23; [apply H12 | ]; assumption. Qed.

Lemma refines_bind {A B : Type} (c c' : M A) (k k' : A -> M B) :
  refines c c' -> (forall a, refines (k a) (k' a)) ->
  refines (bind c k) (bind c' k').
Proof.
  intros Hc Hk s o s' H Ho. unfold bind in *.
  destruct (c s) as [[a | e |] s1] eqn:E.
  - rewrite (Hc s (Ok a) s1 E) by discriminate. apply Hk; assumption.
  - rewrite (Hc s (Raise e) s1 E) by discriminate. exact H.
  - inversion H; subst. contradiction.
Qed.

Lemma refines_repeatM {A : Type} (c c' : M A) (n : nat) :
  refines c c' -> refines (repeatM n c) (repeatM n c').
Proof.
  intros Hc. induction n as [| n IH]; [apply refines_refl | ].
  simpl. apply refines_bind; [exact Hc | intros a].
  apply refines_bind; [exact IH | intros r; apply refines_refl].
Qed.

Lemma refines_compound_loop (c c' : M Tag) :
  refines c c' ->
  forall (n n' : nat) (acc : list Tag),
    (n <= n')%nat -> refines (compound_loop c n acc) (compound_loop c' n' acc).
Proof.
  intros Hc. induction n as [| n IH]; intros n' acc Hn.
  - intros s o s' H Ho. inversion H; subst. contradiction.
  - destruct n' as [| n']; [lia | ].
    rewrite !compound_loop_S. apply refines_bind; [exact Hc | intros t].
    destruct (is_End t); [apply refines_refl | apply IH; lia].
Qed.

Lemma refines_Tag_create_with (rd rd' : TagClass -> bool -> M Tag) :
  (forall c named, refines (rd c named) (rd' c named)) ->
  refines (Tag_create_with rd) (Tag_create_with rd').
Proof.
  intros Hrd. unfold Tag_create_with.
  apply refines_bind; [apply refines_refl | intros b].
  apply refines_bind; [apply refines_refl | intros id].
  destruct (TAG_MAP id); [apply Hrd | apply refines_refl].
Qed.

Lemma refines_TagList_read_with (rd rd' : TagClass -> bool -> M Tag) (named : bool) :
  (forall c named, refines (rd c named) (rd' c named)) ->
  refines (TagList_read_with rd named) (TagList_read_with rd' named).
Proof.
  intros Hrd. unfold TagList_read_with.
  apply refines_bind; [apply refines_refl | intros name].
  apply refines_bind; [apply refines_refl | intros b].
  apply refines_bind; [apply refines_refl | intros id].
  destruct (TAG_MAP id) as [tag_type | ]; [ | apply refines_refl].
  apply refines_bind; [apply refines_refl | intros lb].
  apply refines_bind; [apply refines_refl | intros length].
  apply refines_bind; [ | intros p; apply refines_refl].
  destruct (0 <? length); [ | apply refines_refl].
  apply refines_repeatM. apply Hrd.
Qed.

Lemma class_read_S (fuel : nat) :
  forall c named, refines (class_read fuel c named) (class_read (S fuel) c named).
Proof.
  induction fuel as [| f IH]; intros c named.
  - destruct c; try apply refines_refl;
      intros s o s' H Ho; inversion H; subst; contradiction.
  - destruct c; try apply refines_refl.
    + change (refines (TagList_read_with (class_read f) named)
                      (TagList_read_with (class_read (S f)) named)).
      apply refines_TagList_read_with. exact IH.
    + change (refines
                (TagCompound_read_with (Tag_create_with (class_read f)) f named)
                (TagCompound_read_with (Tag_create_with (class_read (S f))) (S f) named)).
      unfold TagCompound_read_with.
      apply refines_bind; [apply refines_refl | intros name].
      apply refines_bind; [ | intros p; apply refines_refl].
      apply refines_compound_loop; [ | lia].
      apply refines_Tag_create_with. exact IH.
Qed.

(** More fuel never changes a result or an exception. *)
Lemma class_read_mono (fuel fuel' : nat) (c : TagClass) (named : bool) :
  (fuel <= fuel')%nat ->
  refines (class_read fuel c named) (class_read fuel' c named).
Proof.
  induction 1 as [| m Hle IH]; [apply refines_refl | ].
  eapply refines_trans; [exact IH | apply class_read_S].
Qed.

Lemma Tag_create_mono (fuel fuel' : nat) :
  (fuel <= fuel')%nat -> refines (Tag_create fuel) (Tag_create fuel').
Proof.
  intros H. apply refines_Tag_create_with. intros c named.
  apply class_read_mono. exact H.
Qed.

Lemma creates_mono (c c' : M Tag) (s s' : Stream) (ts : list Tag) :
  refines c c' -> creates c s ts s' -> creates c' s ts s'.
Proof.
  intros Hc. induction 1 as [s | s s1 s2 t ts Ht Hne Hrest IH].
  - constructor.
  - econstructor; [ | exact Hne | exact IH].
    apply Hc; [exact Ht | discriminate].
Qed.

(** What a compound decodes to with some fuel, it decodes to with any
    larger amount that exceeds the number of its children. *)
Lemma TagCompound_read_enough_fuel (f fuel : nat) (named : bool)
    (s s0 s1 s' : Stream) (name : option PyStr) (payload : list Tag) :
  read_name named s = (Ok name, s0) ->
  creates (Tag_create f) s0 payload s1 ->
  Tag_create f s1 = (Ok TagEnd, s') ->
  (f <= fuel)%nat -> (List.length payload < fuel)%nat ->
  TagCompound_read fuel named s = (Ok (TagCompound name payload), s').
Proof.
  intros Hname Hcr Hend Hf Hlen.
  pose proof (Tag_create_mono f fuel Hf) as Hmono.
  unfold TagCompound_read, TagCompound_read_with.
  rewrite (bind_ok _ _ s s0 name) by exact Hname.
  destruct (compound_loop_creates _ _ _ _ (creates_mono _ _ _ _ _ Hmono Hcr)
              fuel [] Hlen) as [Hok _].
  rewrite (bind_ok _ _ s0 s' payload)
    by (apply Hok; apply Hmono; [exact Hend | discriminate]).
  reflexivity.
Qed.

(** ** Arrays *)

(** A slice over [k >= 0] positions holds at most [k] elements, wherever
    it starts. *)
Lemma py_slice_len_le {A : Type} (l : list A) (i k : Z) :
  0 <= k -> len (py_slice l i (i + k)) <= k.
Proof.
  intros Hk. rewrite py_slice_len.
  pose proof (len_nonneg l) as Hn. unfold adjust_index.
  destruct (i <? 0) eqn:E1; destruct (i + len l <? 0) eqn:E2;
    destruct (len l <? i) eqn:E3; destruct (i + k <? 0) eqn:E4;
    destruct (i + k + len l <? 0) eqn:E5; destruct (len l <? i + k) eqn:E6; lia.
Qed.

(** A comprehension of [k] elements that returns has found [k * width]
    bytes after a position that lies within the buffer. *)
Lemma repeatM_read_element_room (width : nat) (k : nat) :
  forall (s s' : Stream) (l : list Z),
    Stream_inv s ->
    repeatM k (read_element width) s = (Ok l, s') ->
    index s + Z.of_nat width * Z.of_nat k <= len (data s).
Proof.
  induction k as [| k IH]; intros s s' l Hinv H.
  - unfold Stream_inv in Hinv. lia.
  - simpl in H. apply bind_inv_ok in H. destruct H as (x & s1 & Hx & H).
    apply bind_inv_ok in H. destruct H as (r & s2 & Hr & _).
    unfold read_element in Hx.
    apply bind_inv_ok in Hx. destruct Hx as (e & s3 & He & Hu).
    unfold lift in Hu. inversion Hu; subst s3.
    apply Stream_read_inv in He.
    destruct He as [(_ & Ho & _) | (Hle & _ & Hs1)]; [discriminate | ].
    assert (Hinv1 : Stream_inv s1).
    { subst s1. unfold Stream_inv in *. simpl. lia. }
    pose proof (IH s1 s2 r Hinv1 Hr) as Hroom.
    subst s1. simpl in Hroom. lia.
Qed.

(** The readers of [TagIntArray] and [TagLongArray] take [length] bytes,
    not [length] elements, into the stream they read the elements from:
    an array of elements two or more bytes wide is returned only when it
    is empty. *)
Lemma array_body_only_empty (width : nat) (s s' : Stream) (l : list Z) :
  (2 <= width)%nat -> array_body width s = (Ok l, s') -> l = [].
Proof.
  intros Hw H. unfold array_body in H.
  apply bind_inv_ok in H. destruct H as (b & s1 & _ & H).
  apply bind_inv_ok in H. destruct H as (length & s2 & _ & H).
  destruct (length <? 0) eqn:Eneg; [discriminate | ].
  apply Z.ltb_ge in Eneg.
  apply bind_inv_ok in H. destruct H as (d & s3 & Hd & H).
  unfold on_fresh_stream, lift in H.
  destruct (repeatM (range_len length) _ (Stream_init d)) as [o s4] eqn:Erep.
  simpl in H. inversion H; subst o s'.
  pose proof (repeatM_read_element_room width _ _ _ _ (Stream_init_inv d) Erep)
    as Hroom.
  simpl in Hroom. unfold range_len in Hroom. rewrite Z2Nat.id in Hroom by lia.
  apply Stream_read_inv in Hd.
  destruct Hd as [(_ & Ho & _) | (_ & Ho & _)]; [discriminate | ].
  inversion Ho; subst d.
  pose proof (py_slice_len_le (data s2) (index s2) length Eneg) as Hlen.
  assert (Hz : length = 0) by nia. subst length.
  simpl in Erep. apply ret_inv in Erep. destruct Erep as [<- _]. reflexivity.
Qed.

(** A negative length prefix: [ValueError], with the stream left just
    after the prefix. *)
Lemma array_body_negative (width : nat) (s s1 : Stream) (b : bytes) (n : Z) :
  Stream_read 4 s = (Ok b, s1) -> unpack_i b = Ok n -> n < 0 ->
  array_body width s = (Raise ValueError, s1).
Proof.
  intros Hb Hn Hneg. unfold array_body.
  rewrite (bind_ok _ _ s s1 b) by exact Hb.
  rewrite (bind_ok _ _ s1 s1 n) by (apply lift_ok; exact Hn).
  apply Z.ltb_lt in Hneg. rewrite Hneg. reflexivity.
Qed.

(** X16.  [TagByteArray.read], with or without a name: a negative length
    prefix raises [ValueError], and the stream is left four bytes after
    the name, just behind the prefix. *)
Lemma TagByteArray_read_negative (named : bool) (s s0 s1 : Stream)
    (name : option PyStr) (b : bytes) (n : Z) :
  read_name named s = (Ok name, s0) ->
  Stream_read 4 s0 = (Ok b, s1) -> unpack_i b = Ok n -> n < 0 ->
  TagByteArray_read named s = (Raise ValueError, s1)
  /\ index s1 = index s0 + 4.
Proof.
  intros Hname Hb Hn Hneg. split.
  - unfold TagByteArray_read.
    rewrite (bind_ok _ _ s s0 name) by exact Hname.
    apply bind_raise. eapply array_body_negative; eassumption.
  - apply Stream_read_inv in Hb.
    destruct Hb as [(_ & Ho & _) | (_ & _ & Hs)]; [discriminate | ].
    subst s1. reflexivity.
Qed.

(** X17.  Read as an element of a list, the two wider arrays reject a negative
    length in the same way. *)
Lemma wide_array_read_negative_unnamed (s s1 : Stream) (b : bytes) (n : Z) :
  Stream_read 4 s = (Ok b, s1) -> unpack_i b = Ok n -> n < 0 ->
  TagIntArray_read false s = (Raise ValueError, s1)
  /\ TagLongArray_read false s = (Raise ValueError, s1).
Proof.
  intros Hb Hn Hneg. split.
  - unfold TagIntArray_read, read_name_no_arg.
    rewrite (bind_ok _ _ s s None) by reflexivity.
    apply bind_raise. eapply array_body_negative; eassumption.
  - unfold TagLongArray_read, read_name_no_arg.
    rewrite (bind_ok _ _ s s None) by reflexivity.
    apply bind_raise. eapply array_body_negative; eassumption.
Qed.

(** Read with a name, as [Tag.create] does, they raise [TypeError] before
    anything is read. *)
Lemma wide_array_read_named (s : Stream) :
  TagIntArray_read true s = (Raise TypeError, s)
  /\ TagLongArray_read true s = (Raise TypeError, s).
Proof. split; reflexivity. Qed.

(** C2.  The code does not do what the claim says.  Read with a name (as
    [Tag.create] reads every tag) an [IntArray] or a [LongArray] raises
    [TypeError] at once, and read as an element of a list it raises
    [EOFError] although the buffer holds the element: the bytes below are
    an array of one element, 7, in both positions. *)
Theorem wide_array_decode_fails (fuel : nat) :
  let int_named := [x0b; x00; x00; x00; x00; x00; x01; x00; x00; x00; x07] in
  let long_named := [x0c; x00; x00; x00; x00; x00; x01;
                     x00; x00; x00; x00; x00; x00; x00; x07] in
  let int_in_list := [x09; x00; x00; x0b; x00; x00; x00; x01;
                      x00; x00; x00; x01; x00; x00; x00; x07] in
  let long_in_list := [x09; x00; x00; x0c; x00; x00; x00; x01;
                       x00; x00; x00; x01;
                       x00; x00; x00; x00; x00; x00; x00; x07] in
  Tag_create fuel (Stream_init int_named) = (Raise TypeError, mkStream int_named 1)
  /\ Tag_create fuel (Stream_init long_named)
     = (Raise TypeError, mkStream long_named 1)
  /\ Tag_create (S fuel) (Stream_init int_in_list)
     = (Raise EOFError, mkStream int_in_list 13)
  /\ Tag_create (S fuel) (Stream_init long_in_list)
     = (Raise EOFError, mkStream long_in_list 13).
Proof. destruct fuel; repeat split; reflexivity. Qed.

(** In general these two readers return nothing but the empty array, and
    only for an element of a list. *)
Lemma wide_array_read_only_empty (named : bool) (s s' : Stream) (t : Tag) :
  (TagIntArray_read named s = (Ok t, s') ->
   named = false /\ t = TagIntArray None [])
  /\ (TagLongArray_read named s = (Ok t, s') ->
      named = false /\ t = TagLongArray None []).
Proof.
  split; intros H.
  - unfold TagIntArray_read in H.
    apply bind_inv_ok in H. destruct H as (name & s0 & Hname & H).
    apply bind_inv_ok in H. destruct H as (payload & s1 & Hbody & H).
    apply ret_inv in H. destruct H as [<- _].
    destruct named; [discriminate | ].
    apply ret_inv in Hname. destruct Hname as [<- _].
    apply array_body_only_empty in Hbody; [ | lia]. subst payload.
    split; reflexivity.
  - unfold TagLongArray_read in H.
    apply bind_inv_ok in H. destruct H as (name & s0 & Hname & H).
    apply bind_inv_ok in H. destruct H as (payload & s1 & Hbody & H).
    apply ret_inv in H. destruct H as [<- _].
    destruct named; [discriminate | ].
    apply ret_inv in Hname. destruct Hname as [<- _].
    apply array_body_only_empty in Hbody; [ | lia]. subst payload.
    split; reflexivity.
Qed.

(** C7.  The code does not do what the claim says for two of the three
    arrays.  With the length prefix [ff ff ff ff] (-1), a [ByteArray]
    raises [ValueError] with the stream just after the prefix, but an
    [IntArray] or a [LongArray] decoded by [Tag.create] raises [TypeError]
    before the prefix is read. *)
Theorem array_negative_length (fuel : nat) :
  let byte_array := [x07; x00; x00; xff; xff; xff; xff] in
  let int_array := [x0b; x00; x00; xff; xff; xff; xff] in
  let long_array := [x0c; x00; x00; xff; xff; xff; xff] in
  Tag_create fuel (Stream_init byte_array) = (Raise ValueError, mkStream byte_array 7)
  /\ Tag_create fuel (Stream_init int_array) = (Raise TypeError, mkStream int_array 1)
  /\ Tag_create fuel (Stream_init long_array)
     = (Raise TypeError, mkStream long_array 1).
Proof. destruct fuel; repeat split; reflexivity. Qed.

(** ** Lists *)

(** C4, as amended.  [TagList.read], once the name and the byte of the
    element type are read: when that byte is a registered id (0 to 12) and
    the length that follows is zero or negative, the list returned is
    empty, no element is read and the stream is left after the length,
    whatever the registered id; when the byte is not a registered id,
    [NotImplementedError] is raised before the length is read. *)
Theorem TagList_read_nonpositive_length (fuel : nat) (named : bool)
    (s s0 s1 : Stream) (name : option PyStr) (b : byte) (rest : bytes)
    (Hname : read_name named s = (Ok name, s0))
    (Hread : Stream_read 1 s0 = (Ok (b :: rest), s1)) :
  (0 <= byte_val b <= 12 ->
   forall (lb : bytes) (s2 : Stream) (length : Z),
     Stream_read 4 s1 = (Ok lb, s2) ->
     unpack_i lb = Ok length ->
     length <= 0 ->
     TagList_read fuel named s = (Ok (TagList name []), s2))
  /\ (~ (0 <= byte_val b <= 12) ->
      TagList_read fuel named s
      = (Raise (NotImplementedError (byte_val b)), s1)).
Proof.
  unfold TagList_read, TagList_read_with.
  rewrite (bind_ok _ _ s s0 name) by exact Hname.
  rewrite (bind_ok _ _ s0 s1 (b :: rest)) by exact Hread.
  rewrite (bind_ok _ _ s1 s1 (byte_val b)) by reflexivity.
  split.
  - intros Hreg lb s2 length Hlb Hlen Hle.
    destruct (TAG_MAP_registered _ Hreg) as (c & Hc & _). rewrite Hc.
    rewrite (bind_ok _ _ s1 s2 lb) by exact Hlb.
    rewrite (bind_ok _ _ s2 s2 length) by (apply lift_ok; exact Hlen).
    assert (E : (0 <? length) = false) by (apply Z.ltb_ge; lia).
    rewrite E. reflexivity.
  - intros Hunk. rewrite TAG_MAP_unregistered by exact Hunk. reflexivity.
Qed.

Lemma TagList_read_nonpositive_length_witness :
  let d := [x09; x00; x00; x00; xff; xff; xff; xff] in
  TagList_read 0 true (mkStream d 1) = (Ok (TagList (Some []) []), mkStream d 8).
Proof.
  intros d.
  assert (Hname : read_name true (mkStream d 1) = (Ok (Some []), mkStream d 3))
    by reflexivity.
  assert (Hread : Stream_read 1 (mkStream d 3) = (Ok [x00], mkStream d 4))
    by reflexivity.
  assert (Hreg : 0 <= byte_val x00 <= 12) by (vm_compute; split; discriminate).
  assert (Hlb : Stream_read 4 (mkStream d 4) = (Ok [xff; xff; xff; xff], mkStream d 8))
    by reflexivity.
  assert (Hlen : unpack_i [xff; xff; xff; xff] = Ok (-1)) by reflexivity.
  assert (Hle : -1 <= 0) by lia.
  exact (proj1 (TagList_read_nonpositive_length 0 true _ _ _ _ _ _ Hname Hread)
           Hreg _ _ _ Hlb Hlen Hle).
Defined.

(** C4, as stated, fails: a list of length 0 whose element type id is the
    unregistered [0d] is not decoded; [NotImplementedError] is raised with
    the stream just after that byte. *)
Lemma TagList_read_nonpositive_length_counterexample :
  let d := [x09; x00; x00; x0d; x00; x00; x00; x00] in
  Tag_create 1 (Stream_init d) = (Raise (NotImplementedError 13), mkStream d 4)
  /\ NBT_init 1 d = Raise (NotImplementedError 13).
Proof. split; reflexivity. Qed.

(** C3.  The code does not do what the claim says.  The payload of an
    empty list is written as the single byte [00]: the four bytes of the
    length are missing. *)
Theorem TagList_write_empty (name : option PyStr) :
  Tag_write (TagList name []) = Ok [x00]
  /\ Tag_build (TagList (Some []) []) = Ok [x09; x00; x00; x00].
Proof. split; reflexivity. Qed.

(** ** The document *)

(** C1.  The code does not do what the claim says.  The eight bytes of an
    empty list named [""] decode to a document; its encoding has four
    bytes, and decoding those raises [EOFError] (with no fuel at all the
    decoder does not get that far): no tree is returned. *)
Theorem NBT_round_trip_empty_list (fuel : nat) :
  let d := [x09; x00; x00; x00; x00; x00; x00; x00] in
  let doc := mkNBT d [TagList (Some []) []] in
  let d' := [x09; x00; x00; x00] in
  NBT_init (S fuel) d = Ok doc
  /\ NBT_build doc = Ok (d', mkNBT d' (tags doc))
  /\ NBT_init (S fuel) d' = Raise EOFError
  /\ forall fuel' doc', NBT_init fuel' d' <> Ok doc'.
Proof.
  destruct fuel; repeat split; try reflexivity;
    intros fuel' doc'; destruct fuel' as [| [| f]]; discriminate.
Qed.

(** [TagList.__json__] of an empty list raises [AttributeError]. *)
Lemma Tag_json_empty_list (name : option PyStr) :
  Tag_json (TagList name []) = Raise AttributeError.
Proof. reflexivity. Qed.

(** C5.  The code does not do what the claim says.  The document decoded
    from the eight bytes of an empty list has no dump: [NBT.dict] raises
    [AttributeError]. *)
Theorem NBT_dict_empty_list (fuel : nat) :
  let d := [x09; x00; x00; x00; x00; x00; x00; x00] in
  let doc := mkNBT d [TagList (Some []) []] in
  NBT_init (S fuel) d = Ok doc /\ NBT_dict doc = Raise AttributeError.
Proof. destruct fuel; split; reflexivity. Qed.

(** ** The codec on a well-formed document

    The sample document is decoded, encoded back to the same bytes, and
    dumped with the elements of its list reduced to their payloads. *)
Example sample_decode :
  NBT_init 4 sample_bytes = Ok (mkNBT sample_bytes sample_tags).
Proof. reflexivity. Qed.

Example sample_encode :
  NBT_build (mkNBT [] sample_tags)
  = Ok (sample_bytes, mkNBT sample_bytes sample_tags).
Proof. reflexivity. Qed.

Example sample_dump :
  NBT_dict (mkNBT sample_bytes sample_tags)
  = Ok [json_obj "TAG_Compound" (Some [])
          (VList
             [json_obj "TAG_Byte" (Some [97]) (VInt 5);
              VDict [("type"%string, VStr (str "TAG_List"));
                     ("name"%string, VStr [108]);
                     ("data_type"%string, VStr (str "TAG_Short"));
                     ("payload"%string, VList [VInt 1; VInt 2])]])].
Proof. reflexivity. Qed.

(** A compound whose string child has the name length [ff fb] (-5) sends
    the stream back to its second byte each time: the loop of
    [TagCompound.read] finds the same child again and again. *)
Example compound_rewinds :
  let d := [x0a; x00; x00; x08; xff; xfb; x00] in
  Tag_create 0 (mkStream d 3) = (Ok (TagString (Some []) []), mkStream d 3)
  /\ NBT_init 40 d = Diverge.
Proof. split; reflexivity. Qed.

(* ================================================================= *)
(** * Further properties of the three modules *)

(** ** The stream *)

(** X1.  [peek] returns what [read] returns, bytes or [EOFError], and leaves
    the stream as it was, so that a [read] of the same size after a [peek]
    returns the same bytes. *)
Theorem Stream_peek_then_read (n : Z) (s : Stream) :
  Stream_peek n s = (fst (Stream_read n s), s)
  /\ (forall r s', Stream_peek n s = (Ok r, s') ->
        s' = s /\ Stream_read n s = (Ok r, mkStream (data s) (index s + n)))
  /\ (forall e s', Stream_peek n s = (Raise e, s') ->
        Stream_read n s = (Raise e, s)).
Proof.
  unfold Stream_peek, Stream_read.
  destruct (len (data s) <? index s + n); repeat split;
    intros; try discriminate; try congruence.
  inversion H; subst; reflexivity.
Qed.

Lemma Stream_peek_then_read_witness :
  Stream_read 2 (Stream_init [x01; x02; x03])
  = (Ok [x01; x02], mkStream [x01; x02; x03] 2).
Proof.
  assert (Hp : Stream_peek 2 (Stream_init [x01; x02; x03])
               = (Ok [x01; x02], Stream_init [x01; x02; x03])) by reflexivity.
  exact (proj2 (proj1 (proj2 (Stream_peek_then_read 2 _)) _ _ Hp)).
Defined.

Lemma py_slice_within {A : Type} (l : list A) (i n : Z) :
  0 <= i -> 0 <= n -> i + n <= len l ->
  py_slice l i (i + n) = firstn (Z.to_nat n) (skipn (Z.to_nat i) l).
Proof.
  intros Hi Hn Hle. unfold py_slice.
  rewrite !adjust_index_id by lia. f_equal. lia.
Qed.

Lemma firstn_add {A : Type} (a b : nat) (l : list A) :
  firstn (a + b) l = firstn a l ++ firstn b (skipn a l).
Proof.
  revert l. induction a as [| a IH]; intros l; [reflexivity | ].
  destruct l as [| x l]; simpl.
  - rewrite firstn_nil. reflexivity.
  - rewrite IH. reflexivity.
Qed.

(** X2.  Within the buffer, one read of [n + m] bytes returns what a read of
    [n] bytes followed by a read of [m] bytes returns, and leaves the same
    stream. *)
Theorem Stream_read_split (n m : Z) (s s' : Stream) (r : bytes)
    (Hinv : Stream_inv s) (Hn : 0 <= n) (Hm : 0 <= m)
    (Hread : Stream_read (n + m) s = (Ok r, s')) :
  exists r1 r2 s1,
    Stream_read n s = (Ok r1, s1) /\ Stream_read m s1 = (Ok r2, s')
    /\ r = r1 ++ r2 /\ len r1 = n /\ len r2 = m.
Proof.
  unfold Stream_inv in Hinv.
  apply Stream_read_inv in Hread.
  destruct Hread as [(_ & Ho & _) | (Hle & Ho & Hs')]; [discriminate | ].
  inversion Ho; subst r; clear Ho.
  exists (py_slice (data s) (index s) (index s + n)),
         (py_slice (data s) (index s + n) (index s + n + m)),
         (mkStream (data s) (index s + n)).
  split; [apply Stream_read_ok; lia | ].
  split.
  { rewrite Stream_read_ok by (simpl; lia). simpl. subst s'.
    f_equal. f_equal. lia. }
  split.
  { rewrite (py_slice_within (data s) (index s) n) by lia.
    rewrite (py_slice_within (data s) (index s + n) m) by lia.
    rewrite (py_slice_within (data s) (index s) (n + m)) by lia.
    replace (Z.to_nat (index s + n)) with (Z.to_nat n + Z.to_nat (index s))%nat
      by lia.
    rewrite <- skipn_skipn.
    replace (Z.to_nat (n + m)) with (Z.to_nat n + Z.to_nat m)%nat by lia.
    apply firstn_add. }
  split; apply py_slice_exact; lia.
Qed.

Lemma Stream_read_split_witness :
  let d := [x01; x02; x03; x04] in
  exists r1 r2 s1,
    Stream_read 1 (mkStream d 1) = (Ok r1, s1)
    /\ Stream_read 2 s1 = (Ok r2, mkStream d 4)
    /\ [x02; x03; x04] = r1 ++ r2 /\ len r1 = 1 /\ len r2 = 2.
Proof.
  intros d.
  assert (Hinv : Stream_inv (mkStream d 1))
    by (unfold Stream_inv, len, d; simpl; lia).
  assert (Hread : Stream_read (1 + 2) (mkStream d 1)
                  = (Ok [x02; x03; x04], mkStream d 4)) by reflexivity.
  exact (Stream_read_split 1 2 _ _ _ Hinv ltac:(lia) ltac:(lia) Hread).
Defined.

(** X3.  On a stream whose position lies within its buffer, [alive] tells
    whether a read of one byte succeeds, and such a read returns exactly
    one byte: the [stream.read(1)[0]] of [Tag.create] and [TagList.read]
    finds its element.  A stream that is not alive answers [EOFError]. *)
Theorem Stream_alive_read_one (s : Stream) (Hinv : Stream_inv s) :
  (Stream_alive s = true ->
   exists b, Stream_read 1 s = (Ok [b], mkStream (data s) (index s + 1))
             /\ nth_error (data s) (Z.to_nat (index s)) = Some b)
  /\ (Stream_alive s = false -> Stream_read 1 s = (Raise EOFError, s)).
Proof.
  unfold Stream_inv in Hinv. unfold Stream_alive. split; intros Ha.
  - apply Z.ltb_lt in Ha.
    rewrite Stream_read_ok by lia.
    rewrite (py_slice_within (data s) (index s) 1) by lia.
    destruct (skipn (Z.to_nat (index s)) (data s)) as [| b l] eqn:E.
    + exfalso. assert (Hl : List.length (skipn (Z.to_nat (index s)) (data s)) = 0%nat)
        by (rewrite E; reflexivity).
      rewrite length_skipn in Hl. unfold len in *. lia.
    + exists b. split; [reflexivity | ].
      rewrite <- (firstn_skipn (Z.to_nat (index s)) (data s)), E.
      rewrite nth_error_app2 by (rewrite length_firstn; lia).
      rewrite length_firstn, Nat.min_l by (unfold len in *; lia).
      rewrite Nat.sub_diag. reflexivity.
  - apply Z.ltb_ge in Ha. apply Stream_read_eof. lia.
Qed.

Lemma Stream_alive_read_one_witness :
  exists b, Stream_read 1 (mkStream [x0a; x0b] 1) = (Ok [b], mkStream [x0a; x0b] 2)
            /\ nth_error [x0a; x0b] 1 = Some b.
Proof.
  assert (Hinv : Stream_inv (mkStream [x0a; x0b] 1))
    by (unfold Stream_inv, len; simpl; lia).
  exact (proj1 (Stream_alive_read_one _ Hinv) eq_refl).
Defined.

(** ** [struct] on signed big-endian integers *)

Lemma byte_val_range (b : byte) : 0 <= byte_val b < 256.
Proof. unfold byte_val. pose proof (Byte.to_N_bounded b). lia. Qed.

Lemma byte_val_byte_of_Z (z : Z) : byte_val (byte_of_Z z) = z mod 256.
Proof.
  unfold byte_of_Z. pose proof (Z.mod_pos_bound z 256 ltac:(lia)) as Hm.
  destruct (Byte.of_N (Z.to_N (z mod 256))) as [b | ] eqn:E.
  - apply Byte.to_of_N in E. unfold byte_val. rewrite E. lia.
  - apply Byte.of_N_None_iff in E. lia.
Qed.

Lemma byte_of_Z_byte_val (b : byte) : byte_of_Z (byte_val b) = b.
Proof.
  unfold byte_of_Z. rewrite Z.mod_small by apply byte_val_range.
  unfold byte_val. rewrite N2Z.id, Byte.of_to_N. reflexivity.
Qed.

Lemma byte_of_Z_mod (z : Z) : byte_of_Z (z mod 256) = byte_of_Z z.
Proof. unfold byte_of_Z. rewrite Z.mod_mod by lia. reflexivity. Qed.

Lemma be_unsigned_app (l : bytes) (b : byte) :
  be_unsigned (l ++ [b]) = be_unsigned l * 256 + byte_val b.
Proof. unfold be_unsigned. rewrite fold_left_app. reflexivity. Qed.

Lemma length_be_bytes (n : nat) (z : Z) : List.length (be_bytes n z) = n.
Proof.
  revert z. induction n as [| n IH]; intros z; [reflexivity | ].
  simpl. rewrite length_app, IH. simpl. lia.
Qed.

Lemma len_app {A : Type} (l1 l2 : list A) : len (l1 ++ l2) = len l1 + len l2.
Proof. unfold len. rewrite length_app. lia. Qed.

Lemma pow256_S (n : nat) : 256 ^ Z.of_nat (S n) = 256 * 256 ^ Z.of_nat n.
Proof. rewrite Nat2Z.inj_succ, Z.pow_succ_r by lia. reflexivity. Qed.

Lemma pow256_pos (n : nat) : 0 < 256 ^ Z.of_nat n.
Proof. apply Z.pow_pos_nonneg; lia. Qed.

Lemma be_unsigned_range (bs : bytes) :
  0 <= be_unsigned bs < 256 ^ Z.of_nat (List.length bs).
Proof.
  induction bs as [| b l IH] using rev_ind.
  - simpl. unfold be_unsigned. simpl. lia.
  - rewrite be_unsigned_app, length_app. simpl.
    replace (List.length l + 1)%nat with (S (List.length l)) by lia.
    rewrite pow256_S. pose proof (byte_val_range b). lia.
Qed.

Lemma be_unsigned_be_bytes (n : nat) (z : Z) :
  be_unsigned (be_bytes n z) = z mod 256 ^ Z.of_nat n.
Proof.
  revert z. induction n as [| n IH]; intros z.
  - simpl. rewrite Z.mod_1_r. reflexivity.
  - simpl be_bytes. rewrite be_unsigned_app, IH, byte_val_byte_of_Z, pow256_S.
    rewrite (Z.rem_mul_r z 256 (256 ^ Z.of_nat n)) by (pose proof (pow256_pos n); lia).
    lia.
Qed.

Lemma be_bytes_be_unsigned (bs : bytes) :
  be_bytes (List.length bs) (be_unsigned bs) = bs.
Proof.
  induction bs as [| b l IH] using rev_ind; [reflexivity | ].
  rewrite length_app. simpl.
  replace (List.length l + 1)%nat with (S (List.length l)) by lia.
  simpl be_bytes. rewrite be_unsigned_app.
  pose proof (byte_val_range b) as Hb.
  replace ((be_unsigned l * 256 + byte_val b) / 256) with (be_unsigned l)
    by (apply Z.div_unique with (r := byte_val b); lia).
  rewrite IH. f_equal. f_equal.
  rewrite <- byte_of_Z_mod.
  replace ((be_unsigned l * 256 + byte_val b) mod 256) with (byte_val b)
    by (apply Z.mod_unique with (q := be_unsigned l); lia).
  apply byte_of_Z_byte_val.
Qed.

Lemma be_bytes_mod (n : nat) (z : Z) :
  be_bytes n (z mod 256 ^ Z.of_nat n) = be_bytes n z.
Proof.
  rewrite <- be_unsigned_be_bytes.
  pose proof (be_bytes_be_unsigned (be_bytes n z)) as H.
  rewrite length_be_bytes in H. exact H.
Qed.

Lemma pow2_8n (n : nat) : 2 ^ (8 * Z.of_nat n) = 256 ^ Z.of_nat n.
Proof. rewrite Z.pow_mul_r by lia. reflexivity. Qed.

Lemma pow2_8n_half (n : nat) :
  (1 <= n)%nat -> 2 * 2 ^ (8 * Z.of_nat n - 1) = 256 ^ Z.of_nat n.
Proof.
  intros Hn. rewrite <- pow2_8n.
  replace (8 * Z.of_nat n) with (Z.succ (8 * Z.of_nat n - 1)) at 2 by lia.
  rewrite Z.pow_succ_r by lia. reflexivity.
Qed.

(** What [unpack] returns lies in the range of the format. *)
Lemma unpack_signed_range (n : nat) (bs : bytes) (v : Z) :
  (1 <= n)%nat -> unpack_signed n bs = Ok v ->
  List.length bs = n
  /\ - 2 ^ (8 * Z.of_nat n - 1) <= v < 2 ^ (8 * Z.of_nat n - 1).
Proof.
  intros Hn H. unfold unpack_signed in H.
  destruct (Nat.eqb (List.length bs) n) eqn:E; [ | discriminate].
  apply Nat.eqb_eq in E. split; [exact E | ].
  assert (Hv : v = to_signed (8 * Z.of_nat n) (be_unsigned bs)) by congruence.
  subst v. clear H.
  pose proof (be_unsigned_range bs) as Hr. rewrite E in Hr.
  pose proof (pow2_8n_half n Hn) as Hh.
  unfold to_signed. rewrite pow2_8n.
  destruct (be_unsigned bs <? 2 ^ (8 * Z.of_nat n - 1)) eqn:Elt; lia.
Qed.

(** [unpack] undoes [pack]. *)
Lemma unpack_pack_signed (n : nat) (v : Z) (bs : bytes) :
  (1 <= n)%nat -> pack_signed n v = Ok bs ->
  unpack_signed n bs = Ok v /\ List.length bs = n.
Proof.
  intros Hn H. unfold pack_signed in H.
  destruct ((- 2 ^ (8 * Z.of_nat n - 1) <=? v) && (v <? 2 ^ (8 * Z.of_nat n - 1)))
    eqn:E; [ | discriminate].
  apply andb_true_iff in E. destruct E as [E1 E2].
  apply Z.leb_le in E1. apply Z.ltb_lt in E2.
  assert (Hv : bs = be_bytes n v) by congruence. subst bs. clear H.
  split; [ | apply length_be_bytes].
  unfold unpack_signed. rewrite length_be_bytes, Nat.eqb_refl.
  rewrite be_unsigned_be_bytes. f_equal.
  pose proof (pow2_8n_half n Hn) as Hh.
  unfold to_signed. rewrite pow2_8n.
  destruct (0 <=? v) eqn:Ev.
  - apply Z.leb_le in Ev. rewrite Z.mod_small by lia.
    destruct (v <? 2 ^ (8 * Z.of_nat n - 1)) eqn:Elt; lia.
  - apply Z.leb_gt in Ev.
    replace (v mod 256 ^ Z.of_nat n) with (v + 256 ^ Z.of_nat n)
      by (apply Z.mod_unique with (q := -1); lia).
    destruct (v + 256 ^ Z.of_nat n <? 2 ^ (8 * Z.of_nat n - 1)) eqn:Elt; lia.
Qed.

(** [pack] undoes [unpack]. *)
Lemma pack_unpack_signed (n : nat) (bs : bytes) (v : Z) :
  (1 <= n)%nat -> unpack_signed n bs = Ok v -> pack_signed n v = Ok bs.
Proof.
  intros Hn H.
  destruct (unpack_signed_range n bs v Hn H) as [Hlen [Hlo Hhi]].
  unfold pack_signed.
  apply Z.leb_le in Hlo. apply Z.ltb_lt in Hhi. rewrite Hlo, Hhi. simpl.
  f_equal. unfold unpack_signed in H. rewrite Hlen, Nat.eqb_refl in H.
  assert (Hv : v = to_signed (8 * Z.of_nat n) (be_unsigned bs)) by congruence.
  subst v. clear H.
  rewrite <- be_bytes_mod. unfold to_signed. rewrite pow2_8n.
  pose proof (be_unsigned_range bs) as Hr. rewrite Hlen in Hr.
  destruct (be_unsigned bs <? 2 ^ (8 * Z.of_nat n - 1)).
  - rewrite be_bytes_mod. rewrite <- Hlen. apply be_bytes_be_unsigned.
  - replace ((be_unsigned bs - 256 ^ Z.of_nat n) mod 256 ^ Z.of_nat n)
      with (be_unsigned bs)
      by (apply Z.mod_unique with (q := -1); lia).
    rewrite <- Hlen. apply be_bytes_be_unsigned.
Qed.

(** ** Reading what comes next in the buffer *)

Lemma remaining_room (s : Stream) (x r : bytes) :
  Stream_inv s -> remaining s = x ++ r -> index s + len x <= len (data s).
Proof.
  unfold Stream_inv, remaining. intros Hinv Hrem.
  assert (Hl : List.length (skipn (Z.to_nat (index s)) (data s))
               = List.length (x ++ r)) by (rewrite Hrem; reflexivity).
  rewrite length_skipn, length_app in Hl. unfold len in *. lia.
Qed.

Lemma advance_remaining (s : Stream) (x r : bytes) :
  Stream_inv s -> remaining s = x ++ r ->
  Stream_inv (advance s (len x)) /\ remaining (advance s (len x)) = r.
Proof.
  intros Hinv Hrem. pose proof (remaining_room s x r Hinv Hrem) as Hroom.
  unfold Stream_inv, remaining, advance in *. simpl.
  pose proof (len_nonneg x) as Hx. split; [lia | ].
  replace (Z.to_nat (index s + len x))
    with (List.length x + Z.to_nat (index s))%nat by (unfold len; lia).
  rewrite <- skipn_skipn, Hrem, skipn_app, skipn_all, Nat.sub_diag.
  reflexivity.
Qed.

Lemma advance_advance (s : Stream) (a b : Z) :
  advance (advance s a) b = advance s (a + b).
Proof. unfold advance. simpl. f_equal. lia. Qed.

Lemma advance_0 (s : Stream) : advance s 0 = s.
Proof. destruct s as [d i]. unfold advance. simpl. f_equal. lia. Qed.

Lemma parses_ret {A : Type} (a : A) : parses (ret a) [] a.
Proof. intros s r _ _. unfold ret. simpl. rewrite advance_0. reflexivity. Qed.

Lemma parses_lift {A : Type} (o : Outcome A) (a : A) : o = Ok a -> parses (lift o) [] a.
Proof. intros ->. apply parses_ret. Qed.

Lemma parses_bind {A B : Type} (c : M A) (k : A -> M B) (x y : bytes) (a : A) (b : B) :
  parses c x a -> parses (k a) y b -> parses (bind c k) (x ++ y) b.
Proof.
  intros Hc Hk s r Hinv Hrem. rewrite <- app_assoc in Hrem.
  rewrite (bind_ok _ _ s (advance s (len x)) a) by (eapply Hc; eassumption).
  destruct (advance_remaining s x (y ++ r) Hinv Hrem) as [Hinv1 Hrem1].
  rewrite (Hk _ r Hinv1 Hrem1), advance_advance, len_app. reflexivity.
Qed.

(** The bytes that come next are what [read] returns. *)
Lemma parses_read (x : bytes) (n : Z) : n = len x -> parses (Stream_read n) x x.
Proof.
  intros -> s r Hinv Hrem.
  pose proof (remaining_room s x r Hinv Hrem) as Hroom.
  rewrite Stream_read_ok by exact Hroom.
  unfold Stream_inv in Hinv. pose proof (len_nonneg x) as Hx.
  rewrite py_slice_within by lia.
  unfold remaining in Hrem. rewrite Hrem.
  replace (Z.to_nat (len x)) with (List.length x + 0)%nat by (unfold len; lia).
  rewrite firstn_app_2. simpl. rewrite app_nil_r. reflexivity.
Qed.

Lemma parses_eq {A : Type} (c : M A) (x y : bytes) (a : A) :
  x = y -> parses c x a -> parses c y a.
Proof. intros ->. exact (fun H => H). Qed.

Lemma parses_repeatM {A : Type} (c : M A) (xs : list bytes) (l : list A) :
  Forall2 (fun x a => parses c x a) xs l ->
  parses (repeatM (List.length l) c) (List.concat xs) l.
Proof.
  induction 1 as [| x a xs l Hx Hrest IH]; [apply parses_ret | ].
  simpl. apply parses_bind with (a := a); [exact Hx | ].
  rewrite <- (app_nil_r (List.concat xs)).
  apply parses_bind with (a := l); [exact IH | apply parses_ret].
Qed.


(** ** Strings of ASCII characters *)

Lemma is_ascii_cons (c : Z) (s : PyStr) :
  is_ascii (c :: s) = true <-> (0 <= c < 128) /\ is_ascii s = true.
Proof.
  unfold is_ascii. simpl. rewrite andb_true_iff, andb_true_iff.
  rewrite Z.leb_le, Z.ltb_lt. tauto.
Qed.

Lemma utf8_encode_ascii (s : PyStr) :
  is_ascii s = true -> utf8_encode s = Ok (map byte_of_Z s).
Proof.
  induction s as [| c s IH]; intros H; [reflexivity | ].
  apply is_ascii_cons in H. destruct H as [Hc Hs].
  simpl. unfold utf8_encode_char.
  assert (E1 : (c <? 0) = false) by (apply Z.ltb_ge; lia).
  assert (E2 : (1114112 <=? c) = false) by (apply Z.leb_gt; lia).
  assert (E3 : (55296 <=? c) = false) by (apply Z.leb_gt; lia).
  assert (E4 : (c <? 128) = true) by (apply Z.ltb_lt; lia).
  rewrite E1, E2, E3, E4. simpl. rewrite (IH Hs). reflexivity.
Qed.

Lemma utf8_decode_aux_ascii (s : PyStr) (fuel : nat) :
  is_ascii s = true -> (List.length s <= fuel)%nat ->
  utf8_decode_aux fuel s = Some s.
Proof.
  revert fuel. induction s as [| c s IH]; intros fuel H Hf.
  - destruct fuel; reflexivity.
  - apply is_ascii_cons in H. destruct H as [Hc Hs].
    destruct fuel as [| fuel]; [simpl in Hf; lia | ].
    simpl. assert (E : (c <? 128) = true) by (apply Z.ltb_lt; lia).
    rewrite E, IH; [reflexivity | exact Hs | simpl in Hf; lia].
Qed.

Lemma map_byte_val_ascii (s : PyStr) :
  is_ascii s = true -> map byte_val (map byte_of_Z s) = s.
Proof.
  induction s as [| c s IH]; intros H; [reflexivity | ].
  apply is_ascii_cons in H. destruct H as [Hc Hs].
  simpl. rewrite byte_val_byte_of_Z, Z.mod_small by lia. rewrite (IH Hs).
  reflexivity.
Qed.

Lemma utf8_decode_ascii (s : PyStr) :
  is_ascii s = true -> utf8_decode (map byte_of_Z s) = Ok s.
Proof.
  intros H. unfold utf8_decode. rewrite map_byte_val_ascii by exact H.
  rewrite utf8_decode_aux_ascii; [reflexivity | exact H | ].
  rewrite length_map. lia.
Qed.

Lemma str_ok_inv (s : PyStr) :
  str_ok s = true -> is_ascii s = true /\ 0 <= len s < 32768.
Proof.
  unfold str_ok. intros H. apply andb_true_iff in H. destruct H as [Ha Hl].
  apply Z.ltb_lt in Hl. pose proof (len_nonneg s). split; [exact Ha | lia].
Qed.

Lemma pack_signed_in_range (n : nat) (v : Z) :
  in_range n v = true -> pack_signed n v = Ok (be_bytes n v).
Proof. unfold in_range, pack_signed. intros ->. reflexivity. Qed.


(** ** What [write] and [build] produce is read back *)

Lemma Tag_children_ind (P : Tag -> Prop) :
  (forall t, (forall c, In c (children t) -> P c) -> P t) -> forall t, P t.
Proof.
  intros H. fix F 1. intros t. apply H.
  destruct t; simpl; try (intros c []).
  - induction payload as [| x l IHl]; intros c Hc; [destruct Hc | ].
    destruct Hc as [<- | Hc]; [apply F | apply IHl; exact Hc].
  - induction payload as [| x l IHl]; intros c Hc; [destruct Hc | ].
    destruct Hc as [<- | Hc]; [apply F | apply IHl; exact Hc].
Qed.

Lemma fuel_Forall2 {A B : Type} (Q : nat -> A -> B -> Prop) (xs : list A) (l : list B) :
  (forall f f' x a, (f <= f')%nat -> Q f x a -> Q f' x a) ->
  Forall2 (fun x a => exists f0, Q f0 x a) xs l ->
  exists f0, Forall2 (Q f0) xs l.
Proof.
  intros Hmono. induction 1 as [| x a xs l [f1 Hx] Hrest [f2 IH]].
  - exists 0%nat. constructor.
  - exists (Nat.max f1 f2). constructor.
    + eapply Hmono; [ | exact Hx]. lia.
    + eapply Forall2_impl; [ | exact IH].
      intros x' a' Hq. eapply Hmono; [ | exact Hq]. lia.
Qed.

Lemma all_ok_Forall2 {A B : Type} (f : A -> Outcome B) (R : B -> A -> Prop) (l : list A) :
  (forall a, In a l -> exists b, f a = Ok b /\ R b a) ->
  exists bs, all_ok (map f l) = Ok bs /\ Forall2 R bs l.
Proof.
  induction l as [| a l IH]; intros H.
  - exists []. split; [reflexivity | constructor].
  - destruct (H a (or_introl eq_refl)) as (b & Hb & Hr).
    destruct IH as (bs & Hbs & Hall); [intros a' Ha'; apply H; right; exact Ha' | ].
    exists (b :: bs). split; [ | constructor; assumption].
    simpl. rewrite Hb. simpl. rewrite Hbs. reflexivity.
Qed.

Lemma TAG_MAP_TAG_ID (c : TagClass) : TAG_MAP (TAG_ID c) = Some c.
Proof. destruct c; reflexivity. Qed.

Lemma byte_val_TAG_ID (c : TagClass) : byte_val (byte_of_Z (TAG_ID c)) = TAG_ID c.
Proof. destruct c; reflexivity. Qed.

Lemma pack_b_TAG_ID (c : TagClass) : pack_b (TAG_ID c) = Ok [byte_of_Z (TAG_ID c)].
Proof. destruct c; reflexivity. Qed.


Lemma name_ok_of_codec_ok (named : bool) (t : Tag) :
  codec_ok named t = true ->
  exists n, Tag_name t = Some n /\ name_ok named (class_of t) n = true.
Proof.
  destruct t; simpl; intros H; try discriminate;
    repeat (apply andb_true_iff in H; destruct H as [H ?]);
    eexists; split; try reflexivity; assumption.
Qed.




Lemma parses_refines {A : Type} (c c' : M A) (x : bytes) (a : A) :
  refines c c' -> parses c x a -> parses c' x a.
Proof.
  intros Href Hp s r Hinv Hrem. apply Href; [ | discriminate].
  apply (Hp s r Hinv Hrem).
Qed.

Lemma parses_read_element (n : nat) (v : Z) :
  (1 <= n)%nat -> in_range n v = true ->
  parses (read_element n) (be_bytes n v) v.
Proof.
  intros Hn Hr. unfold read_element. rewrite <- (app_nil_r (be_bytes n v)).
  apply parses_bind with (a := be_bytes n v).
  { apply parses_read. unfold len. rewrite length_be_bytes. reflexivity. }
  apply parses_lift. apply (unpack_pack_signed n v); [exact Hn | ].
  apply pack_signed_in_range. exact Hr.
Qed.

Lemma length_concat_be_bytes_1 (p : list Z) :
  List.length (List.concat (map (be_bytes 1) p)) = List.length p.
Proof. induction p as [| v p IH]; [reflexivity | simpl; f_equal; exact IH]. Qed.

Lemma in_range_4_len {A : Type} (p : list A) :
  (len p <? 2 ^ 31) = true -> in_range 4 (len p) = true.
Proof.
  intros H. apply Z.ltb_lt in H. pose proof (len_nonneg p).
  unfold in_range. apply andb_true_iff.
  split; [apply Z.leb_le | apply Z.ltb_lt]; simpl in *; lia.
Qed.

(** The payload of a byte array: what [TagByteArray.write] produces is
    read back by the body of [TagByteArray.read]. *)
Lemma parses_array_body_bytes (p : list Z) :
  forallb (in_range 1) p = true -> (len p <? 2 ^ 31) = true ->
  exists body, array_write 1 p = Ok body /\ parses (array_body 1) body p.
Proof.
  intros Hall Hlen.
  pose proof (in_range_4_len p Hlen) as Hr4.
  assert (Hpack : all_ok (map (pack_signed 1) p) = Ok (map (be_bytes 1) p)).
  { clear Hlen Hr4. induction p as [| v p IH]; [reflexivity | ].
    simpl in Hall. apply andb_true_iff in Hall. destruct Hall as [Hv Hp].
    simpl. rewrite (pack_signed_in_range 1 v Hv). simpl. rewrite (IH Hp).
    reflexivity. }
  set (d := List.concat (map (be_bytes 1) p)).
  exists (be_bytes 4 (len p) ++ d). split.
  - unfold array_write. rewrite Hpack. simpl. unfold pack_i.
    rewrite (pack_signed_in_range 4 _ Hr4). reflexivity.
  - unfold array_body.
    apply parses_bind with (a := be_bytes 4 (len p)).
    { apply parses_read. unfold len. rewrite length_be_bytes. reflexivity. }
    apply (parses_bind _ _ [] d (len p)).
    { apply parses_lift. apply (unpack_pack_signed 4 (len p)); [lia | ].
      apply pack_signed_in_range. exact Hr4. }
    assert (E : (len p <? 0) = false) by (apply Z.ltb_ge; apply len_nonneg).
    rewrite E. rewrite <- (app_nil_r d).
    apply parses_bind with (a := d).
    { apply parses_read. unfold len. f_equal. symmetry.
      apply length_concat_be_bytes_1. }
    unfold on_fresh_stream. apply parses_lift.
    assert (Hel : Forall2 (fun x v => parses (read_element 1) x v)
                    (map (be_bytes 1) p) p).
    { clear Hpack Hlen Hr4 E d. induction p as [| v p IH]; [constructor | ].
      simpl in Hall. apply andb_true_iff in Hall. destruct Hall as [Hv Hp].
      constructor; [apply parses_read_element; [lia | exact Hv] | exact (IH Hp)]. }
    apply parses_repeatM in Hel.
    unfold range_len, len. rewrite Nat2Z.id.
    rewrite (Hel (Stream_init d) [] (Stream_init_inv d));
      [reflexivity | ].
    unfold remaining, Stream_init. simpl. rewrite app_nil_r. reflexivity.
Qed.

Lemma Tag_build_of_write (t : Tag) (n : option PyStr) (hdr body : bytes) :
  Tag_name t = Some n -> name_bytes true t = Ok hdr -> Tag_write t = Ok body ->
  Tag_build t = Ok (byte_of_Z (TAG_ID (class_of t)) :: hdr ++ body).
Proof.
  intros Hn Hh Hw. unfold Tag_build, Tag_build_with.
  rewrite pack_b_TAG_ID. simpl obind at 1.
  unfold name_bytes in Hh. rewrite Hn in Hh. rewrite Hn, Hh. simpl.
  rewrite Hw. reflexivity.
Qed.

Lemma class_read_leaf (fuel : nat) (c : TagClass) :
  c <> cTagList -> c <> cTagCompound -> class_read fuel c = class_read 0 c.
Proof. intros H1 H2. destruct fuel; destruct c; try reflexivity; contradiction. Qed.

Lemma Tag_write_list (name : option PyStr) (first : Tag) (rest : list Tag) :
  Tag_write (TagList name (first :: rest))
  = if all_isinstance (class_of first) (first :: rest)
    then oapp (Ok [byte_of_Z (TAG_ID (class_of first))])
           (oapp (pack_i (len (first :: rest)))
              (oconcat (all_ok (map Tag_write (first :: rest)))))
    else Raise ValueError.
Proof. reflexivity. Qed.

Lemma Tag_write_compound (name : option PyStr) (payload : list Tag) :
  Tag_write (TagCompound name payload)
  = oapp (oconcat (all_ok (map Tag_build payload))) (Ok [x00]).
Proof. reflexivity. Qed.



Lemma all_isinstance_In (c : TagClass) (p : list Tag) (e : Tag) :
  all_isinstance c p = true -> In e p -> class_of e = c.
Proof.
  unfold all_isinstance. intros H Hin.
  rewrite forallb_forall in H. specialize (H e Hin).
  destruct (class_of e); destruct c; try discriminate; reflexivity.
Qed.





(** ** The length written before a name or a string *)

Lemma utf8_encode_char_len (c : Z) (bs : bytes) :
  utf8_encode_char c = Some bs ->
  (0 <= c < 128 /\ len bs = 1) \/ (~ (0 <= c < 128) /\ 2 <= len bs).
Proof.
  unfold utf8_encode_char.
  destruct (c <? 0) eqn:E0; simpl; [discriminate | ].
  destruct (1114112 <=? c) eqn:E1; simpl; [discriminate | ].
  destruct ((55296 <=? c) && (c <? 57344)) eqn:E2; [discriminate | ].
  apply Z.ltb_ge in E0.
  destruct (c <? 128) eqn:E3.
  - apply Z.ltb_lt in E3. intros H. injection H as <-. left.
    split; [lia | reflexivity].
  - apply Z.ltb_ge in E3.
    destruct (c <? 2048); [ | destruct (c <? 65536)];
      intros H; injection H as <-; right; (split; [lia | unfold len; simpl; lia]).
Qed.

(** X6.  [Tag.build] and [TagString.write] write [len] of the string, its
    number of characters, before its UTF-8 bytes: the length written is
    the number of bytes that follow exactly when every character is ASCII,
    and it is too small otherwise. *)
Theorem name_length_counts_characters (s : PyStr) (b : bytes)
    (Hb : utf8_encode s = Ok b) (Hlen : len s < 32768) :
  name_header (Some s) = Ok (be_bytes 2 (len s) ++ b)
  /\ (forall n, Tag_write (TagString n s) = Ok (be_bytes 2 (len s) ++ b))
  /\ len s <= len b
  /\ (len b = len s <-> is_ascii s = true).
Proof.
  assert (Hr : in_range 2 (len s) = true).
  { pose proof (len_nonneg s). unfold in_range. apply andb_true_iff.
    split; [apply Z.leb_le | apply Z.ltb_lt]; simpl; lia. }
  assert (Hh : oapp (pack_h (len s)) (utf8_encode s) = Ok (be_bytes 2 (len s) ++ b)).
  { unfold pack_h. rewrite (pack_signed_in_range 2 _ Hr), Hb. reflexivity. }
  split; [exact Hh | ]. split; [intros n; exact Hh | ].
  clear Hh Hr Hlen. revert b Hb.
  induction s as [| c s IH]; intros b Hb.
  - simpl in Hb. injection Hb as <-. split; [reflexivity | ].
    split; reflexivity.
  - simpl in Hb. destruct (utf8_encode_char c) as [bs | ] eqn:Ec; [ | discriminate].
    destruct (utf8_encode s) as [rest | e | ] eqn:Es; try discriminate.
    simpl in Hb. injection Hb as <-.
    destruct (IH rest eq_refl) as [Hle Hiff].
    rewrite len_app, is_ascii_cons.
    assert (Hcons : len (c :: s) = 1 + len s)
      by (unfold len; simpl List.length; lia).
    rewrite Hcons.
    destruct (utf8_encode_char_len c bs Ec) as [[Hc Hl] | [Hc Hl]].
    + split; [lia | ]. split.
      * intros H. split; [exact Hc | ]. apply Hiff. lia.
      * intros [_ Ha]. apply Hiff in Ha. lia.
    + split; [lia | ]. split; [intros H; lia | intros [Hc' _]; contradiction].
Qed.

Lemma name_length_counts_characters_witness :
  let t := TagByte (Some [233]) 5 in
  name_header (Some [233]) = Ok [x00; x01; xc3; xa9]
  /\ Tag_build t = Ok [x01; x00; x01; xc3; xa9; x05]
  /\ NBT_init 0 [x01; x00; x01; xc3; xa9; x05] = Raise UnicodeDecodeError.
Proof.
  intros t.
  assert (Hb : utf8_encode [233] = Ok [xc3; xa9]) by reflexivity.
  assert (Hlen : len [233] < 32768) by (unfold len; simpl; lia).
  split; [exact (proj1 (name_length_counts_characters [233] _ Hb Hlen)) | ].
  split; reflexivity.
Defined.

(** ** The shape of what the decoder returns *)

Lemma lift_inv {A : Type} (o : Outcome A) (a : A) (s s' : Stream) :
  lift o s = (Ok a, s') -> o = Ok a /\ s' = s.
Proof. unfold lift. intros H. inversion H. split; reflexivity. Qed.

Lemma read_name_shape (named : bool) (s s' : Stream) (n : option PyStr) :
  read_name named s = (Ok n, s') -> name_shape named n = true.
Proof.
  unfold read_name. destruct named; intros H.
  - apply bind_inv_ok in H. destruct H as (x & s1 & _ & H).
    apply ret_inv in H. destruct H as [<- _]. reflexivity.
  - apply ret_inv in H. destruct H as [<- _]. reflexivity.
Qed.

Lemma in_range_of_unpack (n : nat) (bs : bytes) (v : Z) :
  (1 <= n)%nat -> unpack_signed n bs = Ok v -> in_range n v = true.
Proof.
  intros Hn H. destruct (unpack_signed_range n bs v Hn H) as [_ [Hlo Hhi]].
  unfold in_range. apply andb_true_iff.
  split; [apply Z.leb_le | apply Z.ltb_lt]; assumption.
Qed.

(** What a reader of a scalar class has done when it returns. *)
Lemma scalar_read_inv (n : nat) (k : option PyStr -> Z -> Tag) (named : bool)
    (s s' : Stream) (t : Tag) :
  (name <- read_name named ;;
   b <- Stream_read (Z.of_nat n) ;;
   payload <- lift (unpack_signed n b) ;;
   ret (k name payload)) s = (Ok t, s') ->
  exists name v s0 b,
    read_name named s = (Ok name, s0)
    /\ Stream_read (Z.of_nat n) s0 = (Ok b, s')
    /\ unpack_signed n b = Ok v /\ t = k name v.
Proof.
  intros H.
  apply bind_inv_ok in H. destruct H as (name & s0 & Hname & H).
  apply bind_inv_ok in H. destruct H as (b & s1 & Hb & H).
  apply bind_inv_ok in H. destruct H as (v & s2 & Hv & H).
  apply ret_inv in H. destruct H as [<- <-].
  apply lift_inv in Hv. destruct Hv as [Hv ->].
  exists name, v, s0, b. repeat split; assumption.
Qed.

Lemma TagByte_read_inv (named : bool) (s s' : Stream) (t : Tag) :
  TagByte_read named s = (Ok t, s') ->
  exists name v s0 b,
    (if named then read_string else ret []) s = (Ok name, s0)
    /\ Stream_read 1 s0 = (Ok b, s')
    /\ unpack_signed 1 b = Ok v /\ t = TagByte (Some name) v.
Proof.
  unfold TagByte_read. intros H.
  apply bind_inv_ok in H. destruct H as (name & s0 & Hname & H).
  apply bind_inv_ok in H. destruct H as (b & s1 & Hb & H).
  apply bind_inv_ok in H. destruct H as (v & s2 & Hv & H).
  apply ret_inv in H. destruct H as [<- <-].
  apply lift_inv in Hv. destruct Hv as [Hv ->].
  exists name, v, s0, b. repeat split; assumption.
Qed.

Lemma read_element_in_range (n : nat) (s s' : Stream) (v : Z) :
  (1 <= n)%nat -> read_element n s = (Ok v, s') -> in_range n v = true.
Proof.
  intros Hn H. unfold read_element in H.
  apply bind_inv_ok in H. destruct H as (e & s1 & _ & H).
  apply lift_inv in H. destruct H as [H _].
  exact (in_range_of_unpack n e v Hn H).
Qed.

Lemma array_body_in_range (n : nat) (s s' : Stream) (l : list Z) :
  (1 <= n)%nat -> array_body n s = (Ok l, s') -> forallb (in_range n) l = true.
Proof.
  intros Hn H. unfold array_body in H.
  apply bind_inv_ok in H. destruct H as (b & s1 & _ & H).
  apply bind_inv_ok in H. destruct H as (length & s2 & _ & H).
  destruct (length <? 0); [discriminate | ].
  apply bind_inv_ok in H. destruct H as (d & s3 & _ & H).
  unfold on_fresh_stream in H. apply lift_inv in H. destruct H as [H _].
  destruct (repeatM (range_len length) (read_element n) (Stream_init d))
    as [o s4] eqn:E.
  simpl in H. subst o.
  apply forallb_forall. apply Forall_forall.
  eapply (repeatM_Forall (fun v => in_range n v = true)); [ | exact E].
  intros s5 v s6 Hv. exact (read_element_in_range n s5 s6 v Hn Hv).
Qed.

Lemma TagClass_eqb_refl (c : TagClass) : TagClass_eqb c c = true.
Proof. destruct c; reflexivity. Qed.

Lemma decoded_shape_not_End (t : Tag) : decoded_shape false t = true -> is_End t = false.
Proof. destruct t; simpl; intros H; try reflexivity; discriminate. Qed.

Lemma class_read_leaf_S (fuel : nat) (c : TagClass) :
  c <> cTagList -> c <> cTagCompound -> class_read (S fuel) c = class_read fuel c.
Proof. intros H1 H2. destruct fuel; destruct c; try reflexivity; contradiction. Qed.

(** Whatever a [read] method returns is an object of its class and has
    the shape of decoded trees. *)
Lemma class_read_shape (fuel : nat) :
  forall (c : TagClass) (named : bool) (s s' : Stream) (t : Tag),
    class_read fuel c named s = (Ok t, s') ->
    class_of t = c /\ decoded_shape named t = true.
Proof.
  induction fuel as [| f IH]; intros c named s s' t H.
  - destruct c; simpl in H; try discriminate.
    + unfold TagEnd_read in H. destruct named; [ | discriminate].
      apply ret_inv in H. destruct H as [<- _]. split; reflexivity.
    + apply TagByte_read_inv in H.
      destruct H as (name & v & s0 & b & Hname & _ & Hv & ->).
      split; [reflexivity | ]. simpl.
      rewrite (in_range_of_unpack 1 b v ltac:(lia) Hv), andb_true_r.
      destruct named; [reflexivity | ].
      apply ret_inv in Hname. destruct Hname as [<- _]. reflexivity.
    + apply (scalar_read_inv 2 TagShort) in H.
      destruct H as (name & v & s0 & b & Hname & _ & Hv & ->).
      split; [reflexivity | ]. simpl.
      rewrite (read_name_shape _ _ _ _ Hname).
      exact (in_range_of_unpack 2 b v ltac:(lia) Hv).
    + apply (scalar_read_inv 4 TagInt) in H.
      destruct H as (name & v & s0 & b & Hname & _ & Hv & ->).
      split; [reflexivity | ]. simpl.
      rewrite (read_name_shape _ _ _ _ Hname).
      exact (in_range_of_unpack 4 b v ltac:(lia) Hv).
    + apply (scalar_read_inv 8 TagLong) in H.
      destruct H as (name & v & s0 & b & Hname & _ & Hv & ->).
      split; [reflexivity | ]. simpl.
      rewrite (read_name_shape _ _ _ _ Hname).
      exact (in_range_of_unpack 8 b v ltac:(lia) Hv).
    + unfold TagFloat_read in H.
      apply bind_inv_ok in H. destruct H as (name & s0 & Hname & H).
      apply bind_inv_ok in H. destruct H as (b & s1 & _ & H).
      apply bind_inv_ok in H. destruct H as (v & s2 & _ & H).
      apply ret_inv in H. destruct H as [<- _].
      split; [reflexivity | exact (read_name_shape _ _ _ _ Hname)].
    + unfold TagDouble_read in H.
      apply bind_inv_ok in H. destruct H as (name & s0 & Hname & H).
      apply bind_inv_ok in H. destruct H as (b & s1 & _ & H).
      apply bind_inv_ok in H. destruct H as (v & s2 & _ & H).
      apply ret_inv in H. destruct H as [<- _].
      split; [reflexivity | exact (read_name_shape _ _ _ _ Hname)].
    + unfold TagByteArray_read in H.
      apply bind_inv_ok in H. destruct H as (name & s0 & Hname & H).
      apply bind_inv_ok in H. destruct H as (p & s1 & Hp & H).
      apply ret_inv in H. destruct H as [<- _].
      split; [reflexivity | ]. simpl.
      rewrite (read_name_shape _ _ _ _ Hname).
      exact (array_body_in_range 1 _ _ _ ltac:(lia) Hp).
    + unfold TagString_read in H.
      apply bind_inv_ok in H. destruct H as (name & s0 & Hname & H).
      apply bind_inv_ok in H. destruct H as (p & s1 & _ & H).
      apply ret_inv in H. destruct H as [<- _].
      split; [reflexivity | exact (read_name_shape _ _ _ _ Hname)].
    + destruct (proj1 (wide_array_read_only_empty named s s' t) H) as [-> ->].
      split; reflexivity.
    + destruct (proj2 (wide_array_read_only_empty named s s' t) H) as [-> ->].
      split; reflexivity.
  - destruct c;
      try (apply (IH _ named s s' t);
           rewrite <- (class_read_leaf_S f) by discriminate; exact H).
    + (* TagList *)
      change (TagList_read_with (class_read f) named s = (Ok t, s')) in H.
      unfold TagList_read_with in H.
      apply bind_inv_ok in H. destruct H as (name & u1 & Hname & H).
      apply bind_inv_ok in H. destruct H as (b & u2 & _ & H).
      apply bind_inv_ok in H. destruct H as (tag_id & u3 & _ & H).
      destruct (TAG_MAP tag_id) as [tag_type | ]; [ | discriminate].
      apply bind_inv_ok in H. destruct H as (lb & u4 & _ & H).
      apply bind_inv_ok in H. destruct H as (length & u5 & _ & H).
      apply bind_inv_ok in H. destruct H as (payload & u6 & Hpay & H).
      apply ret_inv in H. destruct H as [<- _].
      split; [reflexivity | ]. simpl.
      rewrite (read_name_shape _ _ _ _ Hname). simpl.
      assert (Hall : Forall (fun e => class_of e = tag_type
                                      /\ decoded_shape false e = true) payload).
      { destruct (0 <? length).
        - eapply repeatM_Forall; [ | exact Hpay].
          intros ? ? ? Hrd. eapply IH; exact Hrd.
        - apply ret_inv in Hpay. destruct Hpay as [<- _]. constructor. }
      destruct payload as [| first rest]; [reflexivity | ].
      assert (Hfirst : class_of first = tag_type
                       /\ decoded_shape false first = true)
        by (inversion Hall; assumption).
      destruct Hfirst as [Hc Hs].
      apply andb_true_iff. split; [apply andb_true_iff; split | ].
      * rewrite (decoded_shape_not_End first Hs). reflexivity.
      * unfold all_isinstance. apply forallb_forall. intros e He.
        rewrite Forall_forall in Hall. destruct (Hall e He) as [-> _].
        rewrite Hc. apply TagClass_eqb_refl.
      * apply forallb_forall. intros e He.
        rewrite Forall_forall in Hall. exact (proj2 (Hall e He)).
    + (* TagCompound *)
      change (TagCompound_read_with (Tag_create_with (class_read f)) f named s
              = (Ok t, s')) in H.
      unfold TagCompound_read_with in H.
      apply bind_inv_ok in H. destruct H as (name & u1 & Hname & H).
      apply bind_inv_ok in H. destruct H as (payload & u2 & Hpay & H).
      apply ret_inv in H. destruct H as [<- _].
      split; [reflexivity | ]. simpl.
      rewrite (read_name_shape _ _ _ _ Hname). simpl.
      apply compound_loop_sound in Hpay.
      destruct Hpay as (ts & u3 & Hl & Hcr & _). simpl in Hl. subst ts.
      pose proof (creates_no_End _ _ _ _ Hcr) as Hne.
      assert (Hok : Forall (fun e => decoded_shape true e = true) payload).
      { eapply creates_Forall; [ | exact Hcr].
        intros ? ? ? Hc. apply Tag_create_with_inv in Hc.
        destruct Hc as (? & ? & ? & _ & _ & _ & Hrd).
        exact (proj2 (IH _ _ _ _ _ Hrd)). }
      apply forallb_forall. intros e He.
      rewrite Forall_forall in Hne, Hok.
      rewrite (proj2 (is_End_false e) (Hne e He)). exact (Hok e He).
Qed.

Lemma read_loop_Forall (P : Tag -> Prop) (create : M Tag) :
  (forall s t s', create s = (Ok t, s') -> P t) ->
  forall (n : nat) (acc : list Tag) (s s' : Stream) (l : list Tag),
    Forall P acc -> read_loop create n acc s = (Ok l, s') -> Forall P l.
Proof.
  intros Hc. induction n as [| n IH]; intros acc s s' l Hacc H; [discriminate | ].
  simpl in H. destruct (Stream_alive s).
  - apply bind_inv_ok in H. destruct H as (t & s1 & Ht & H).
    apply (IH (acc ++ [t]) s1 s' l); [ | exact H].
    apply Forall_app. split; [exact Hacc | ].
    constructor; [exact (Hc _ _ _ Ht) | constructor].
  - inversion H; subst. exact Hacc.
Qed.

Lemma NBT_init_shape (fuel : nat) (d : bytes) (doc : NBT) :
  NBT_init fuel d = Ok doc ->
  nbt_data doc = d /\ forallb (decoded_shape true) (tags doc) = true.
Proof.
  intros Hdec. unfold NBT_init, NBT_read in Hdec.
  destruct (read_loop (Tag_create fuel) (S fuel) [] (Stream_init d)) as [o s'] eqn:E.
  simpl in Hdec. destruct o as [ts | e | ]; try discriminate.
  simpl in Hdec. injection Hdec as <-. split; [reflexivity | ]. simpl.
  apply forallb_forall. apply Forall_forall.
  eapply (read_loop_Forall (fun t => decoded_shape true t = true));
    [ | constructor | exact E].
  intros s t s1 Hc. apply Tag_create_with_inv in Hc.
  destruct Hc as (b & s2 & c & _ & _ & _ & Hrd).
  exact (proj2 (class_read_shape fuel c true s2 s1 t Hrd)).
Qed.

(** X7.  Every tag of a decoded document has the shape of decoded trees: names
    where the reader stores them, integers within the range of their
    format, lists of objects of one class, no [TagEnd] inside a list or a
    compound, and no [IntArray] or [LongArray] but an empty one inside a
    list. *)
Theorem NBT_init_decoded_shape (fuel : nat) (d : bytes) (doc : NBT)
    (Hdec : NBT_init fuel d = Ok doc) :
  nbt_data doc = d /\ forallb (decoded_shape true) (tags doc) = true.
Proof.
  unfold NBT_init, NBT_read in Hdec.
  destruct (read_loop (Tag_create fuel) (S fuel) [] (Stream_init d)) as [o s'] eqn:E.
  simpl in Hdec. destruct o as [ts | e | ]; try discriminate.
  simpl in Hdec. injection Hdec as <-. split; [reflexivity | ]. simpl.
  apply forallb_forall. apply Forall_forall.
  eapply (read_loop_Forall (fun t => decoded_shape true t = true));
    [ | constructor | exact E].
  intros s t s1 Hc. apply Tag_create_with_inv in Hc.
  destruct Hc as (b & s2 & c & _ & _ & _ & Hrd).
  exact (proj2 (class_read_shape fuel c true s2 s1 t Hrd)).
Qed.

Lemma NBT_init_decoded_shape_witness :
  forallb (decoded_shape true) sample_tags = true.
Proof.
  assert (Hdec : NBT_init 4 sample_bytes = Ok (mkNBT sample_bytes sample_tags))
    by reflexivity.
  exact (proj2 (NBT_init_decoded_shape 4 _ _ Hdec)).
Defined.

(** ** The dump of a decoded tree *)

Lemma all_ok_raise {A B : Type} (f : A -> Outcome B) (e : PyExc) (l : list A) :
  (forall a, In a l -> (exists b, f a = Ok b) \/ f a = Raise e) ->
  (exists a, In a l /\ f a = Raise e) ->
  all_ok (map f l) = Raise e.
Proof.
  induction l as [| a l IH]; intros Hall [a0 [Hin Hr]]; [destruct Hin | ].
  simpl. destruct (Hall a (or_introl eq_refl)) as [[b Hb] | Ha].
  - rewrite Hb. simpl.
    rewrite IH; [reflexivity | intros a' Ha'; apply Hall; right; exact Ha' | ].
    destruct Hin as [<- | Hin]; [congruence | ].
    exists a0. split; assumption.
  - rewrite Ha. reflexivity.
Qed.

Lemma all_ok_total {A B : Type} (f : A -> Outcome B) (l : list A) :
  (forall a, In a l -> exists b, f a = Ok b) -> exists bs, all_ok (map f l) = Ok bs.
Proof.
  intros H.
  destruct (all_ok_Forall2 f (fun _ _ => True) l) as (bs & Hbs & _).
  - intros a Ha. destruct (H a Ha) as [b Hb]. exists b. split; [exact Hb | exact I].
  - exists bs. exact Hbs.
Qed.

Lemma forallb_false_In {A : Type} (f : A -> bool) (l : list A) :
  forallb f l = false -> exists a, In a l /\ f a = false.
Proof.
  induction l as [| a l IH]; [discriminate | ]. simpl. intros H.
  destruct (f a) eqn:E.
  - destruct (IH H) as (a' & Hin & Ha'). exists a'. split; [right | ]; assumption.
  - exists a. split; [left; reflexivity | exact E].
Qed.

(** On a tree of decoded shape, [__json__] returns a dictionary, with a
    key ["payload"] unless the tree is a [TagEnd], when no list in the tree
    is empty, and raises [AttributeError] when one is. *)
Lemma Tag_json_decoded :
  forall (t : Tag) (named : bool),
    decoded_shape named t = true ->
    (no_empty_list t = true ->
     exists v, Tag_json t = Ok v
               /\ (is_End t = false -> exists p, getitem v "payload" = Ok p))
    /\ (no_empty_list t = false -> Tag_json t = Raise AttributeError).
Proof.
  induction t as [t IH] using Tag_children_ind. intros named Hs.
  destruct t; simpl in Hs;
    try (split; [intros _; eexists; split;
                   [reflexivity | intros _; eexists; reflexivity]
                | discriminate]).
  - (* TagEnd *)
    split; [ | discriminate]. intros _. eexists. split; [reflexivity | ].
    intros H. discriminate.
  - (* TagList *)
    apply andb_true_iff in Hs. destruct Hs as [_ Hs].
    destruct payload as [| first rest].
    { split; [discriminate | reflexivity]. }
    apply andb_true_iff in Hs. destruct Hs as [Hs Hall].
    set (p := first :: rest) in *.
    set (f := fun tag => obind (Tag_json tag) (fun j => getitem j "payload")).
    assert (Hel : forall e, In e p ->
              (no_empty_list e = true -> exists b, f e = Ok b)
              /\ (no_empty_list e = false -> f e = Raise AttributeError)).
    { intros e He. rewrite forallb_forall in Hall.
      destruct (IH e He false (Hall e He)) as [Hyes Hno]. split.
      - intros Hne. destruct (Hyes Hne) as (v & Hv & Hp).
        destruct (Hp (decoded_shape_not_End e (Hall e He))) as [pl Hpl].
        exists pl. unfold f. rewrite Hv. exact Hpl.
      - intros Hne. unfold f. rewrite (Hno Hne). reflexivity. }
    assert (Hjson : Tag_json (TagList name p)
                    = obind (all_ok (map f p)) (fun elems =>
                        Ok (VDict [("type"%string, VStr (str "TAG_List"));
                                   ("name"%string, VName name);
                                   ("data_type"%string,
                                    VStr (str (TAG_NAME (class_of first))));
                                   ("payload"%string, VList elems)])))
      by reflexivity.
    rewrite Hjson. change (no_empty_list (TagList name p)) with (forallb no_empty_list p).
    split; intros Hne.
    + rewrite forallb_forall in Hne.
      destruct (all_ok_total f p) as [bs Hbs].
      { intros e He. exact (proj1 (Hel e He) (Hne e He)). }
      rewrite Hbs. eexists. split; [reflexivity | ].
      intros _. eexists. reflexivity.
    + rewrite (all_ok_raise f AttributeError p); [reflexivity | | ].
      * intros e He. destruct (no_empty_list e) eqn:E.
        -- left. exact (proj1 (Hel e He) E).
        -- right. exact (proj2 (Hel e He) E).
      * destruct (forallb_false_In _ _ Hne) as (e & He & Hf).
        exists e. split; [exact He | exact (proj2 (Hel e He) Hf)].
  - (* TagCompound *)
    apply andb_true_iff in Hs. destruct Hs as [_ Hall].
    assert (Hel : forall e, In e payload ->
              (no_empty_list e = true -> exists b, Tag_json e = Ok b)
              /\ (no_empty_list e = false -> Tag_json e = Raise AttributeError)).
    { intros e He. rewrite forallb_forall in Hall.
      specialize (Hall e He). apply andb_true_iff in Hall. destruct Hall as [_ Hes].
      destruct (IH e He true Hes) as [Hyes Hno]. split; [ | exact Hno].
      intros Hne. destruct (Hyes Hne) as (v & Hv & _). exists v. exact Hv. }
    assert (Hjson : Tag_json (TagCompound name payload)
                    = obind (all_ok (map Tag_json payload)) (fun children =>
                        Ok (json_obj "TAG_Compound" name (VList children))))
      by reflexivity.
    rewrite Hjson.
    change (no_empty_list (TagCompound name payload))
      with (forallb no_empty_list payload).
    split; intros Hne.
    + rewrite forallb_forall in Hne.
      destruct (all_ok_total Tag_json payload) as [bs Hbs].
      { intros e He. exact (proj1 (Hel e He) (Hne e He)). }
      rewrite Hbs. eexists. split; [reflexivity | ].
      intros _. eexists. reflexivity.
    + rewrite (all_ok_raise Tag_json AttributeError payload); [reflexivity | | ].
      * intros e He. destruct (no_empty_list e) eqn:E.
        -- left. exact (proj1 (Hel e He) E).
        -- right. exact (proj2 (Hel e He) E).
      * destruct (forallb_false_In _ _ Hne) as (e & He & Hf).
        exists e. split; [exact He | exact (proj2 (Hel e He) Hf)].
Qed.

(** X8.  The dump of a decoded document: [NBT.dict] returns one dictionary for
    each root tag when no list in the document is empty, and raises
    [AttributeError] when one is. *)
Theorem NBT_dict_decoded (fuel : nat) (d : bytes) (doc : NBT)
    (Hdec : NBT_init fuel d = Ok doc) :
  (forallb no_empty_list (tags doc) = true ->
   exists l, NBT_dict doc = Ok l /\ List.length l = List.length (tags doc))
  /\ (forallb no_empty_list (tags doc) = false ->
      NBT_dict doc = Raise AttributeError).
Proof.
  destruct (NBT_init_shape fuel d doc Hdec) as [_ Hshape].
  rewrite forallb_forall in Hshape. unfold NBT_dict. split; intros Hne.
  - rewrite forallb_forall in Hne.
    destruct (all_ok_Forall2 Tag_json (fun _ _ => True) (tags doc))
      as (l & Hl & Hall).
    { intros t Ht.
      destruct (proj1 (Tag_json_decoded t true (Hshape t Ht)) (Hne t Ht))
        as (v & Hv & _).
      exists v. split; [exact Hv | exact I]. }
    exists l. split; [exact Hl | exact (Forall2_length Hall)].
  - apply all_ok_raise.
    + intros t Ht. destruct (no_empty_list t) eqn:E.
      * left. destruct (proj1 (Tag_json_decoded t true (Hshape t Ht)) E)
          as (v & Hv & _).
        exists v. exact Hv.
      * right. exact (proj2 (Tag_json_decoded t true (Hshape t Ht)) E).
    + destruct (forallb_false_In _ _ Hne) as (t & Ht & Hf).
      exists t. split; [exact Ht | ].
      exact (proj2 (Tag_json_decoded t true (Hshape t Ht)) Hf).
Qed.

Lemma NBT_dict_decoded_witness :
  exists l, NBT_dict (mkNBT sample_bytes sample_tags) = Ok l
            /\ List.length l = List.length sample_tags.
Proof.
  assert (Hdec : NBT_init 4 sample_bytes = Ok (mkNBT sample_bytes sample_tags))
    by reflexivity.
  exact (proj1 (NBT_dict_decoded 4 _ _ Hdec) eq_refl).
Defined.

(** ** More on arrays and scalars *)

Lemma parses_read_element_byte (b : byte) :
  parses (read_element 1) [b] (signed_byte b).
Proof.
  unfold read_element.
  apply (parses_bind _ _ [b] [] [b]); [apply parses_read; reflexivity | ].
  apply parses_lift. reflexivity.
Qed.

Lemma concat_singletons {A : Type} (l : list A) :
  List.concat (map (fun a => [a]) l) = l.
Proof. induction l as [| a l IH]; [reflexivity | simpl; f_equal; exact IH]. Qed.

(** X10.  [TagByteArray.read]: after the name, when the four bytes of a length
    [n] below 2^31 are followed by [n] bytes, the array returned holds
    these [n] bytes, read as signed numbers, in their order, and the
    stream is left just after them. *)
Theorem TagByteArray_read_elements (named : bool) (s s0 : Stream)
    (name : option PyStr) (x r : bytes)
    (Hname : read_name named s = (Ok name, s0))
    (Hinv : Stream_inv s0)
    (Hrem : remaining s0 = be_bytes 4 (len x) ++ x ++ r)
    (Hlen : len x < 2 ^ 31) :
  TagByteArray_read named s
  = (Ok (TagByteArray name (map signed_byte x)), advance s0 (4 + len x)).
Proof.
  assert (Hr4 : in_range 4 (len x) = true).
  { apply in_range_4_len. apply Z.ltb_lt. exact Hlen. }
  assert (Hp : parses (array_body 1) (be_bytes 4 (len x) ++ x) (map signed_byte x)).
  { unfold array_body.
    apply parses_bind with (a := be_bytes 4 (len x)).
    { apply parses_read. unfold len. rewrite length_be_bytes. reflexivity. }
    apply (parses_bind _ _ [] x (len x)).
    { apply parses_lift. apply (unpack_pack_signed 4 (len x)); [lia | ].
      apply pack_signed_in_range. exact Hr4. }
    assert (E : (len x <? 0) = false) by (apply Z.ltb_ge; apply len_nonneg).
    rewrite E. rewrite <- (app_nil_r x) at 2.
    apply parses_bind with (a := x); [apply parses_read; reflexivity | ].
    unfold on_fresh_stream. apply parses_lift.
    assert (Hel : Forall2 (fun y v => parses (read_element 1) y v)
                    (map (fun b => [b]) x) (map signed_byte x)).
    { clear. induction x as [| b x IH]; [constructor | ].
      constructor; [apply parses_read_element_byte | exact IH]. }
    apply parses_repeatM in Hel. rewrite length_map in Hel.
    unfold range_len, len. rewrite Nat2Z.id.
    rewrite (Hel (Stream_init x) [] (Stream_init_inv x)); [reflexivity | ].
    unfold remaining, Stream_init. simpl.
    rewrite concat_singletons, app_nil_r. reflexivity. }
  unfold TagByteArray_read.
  rewrite (bind_ok _ _ s s0 name) by exact Hname.
  rewrite app_assoc in Hrem.
  rewrite (bind_ok _ _ s0 (advance s0 (len (be_bytes 4 (len x) ++ x)))
             (map signed_byte x)) by (apply (Hp s0 r Hinv Hrem)).
  unfold ret. rewrite len_app. unfold len at 1. rewrite length_be_bytes.
  reflexivity.
Qed.

Lemma TagByteArray_read_elements_witness :
  let d := [x07; x00; x00; x00; x00; x00; x02; xff; x7f; x00] in
  TagByteArray_read true (mkStream d 1)
  = (Ok (TagByteArray (Some []) [-1; 127]), mkStream d 9).
Proof.
  intros d.
  assert (Hname : read_name true (mkStream d 1) = (Ok (Some []), mkStream d 3))
    by reflexivity.
  assert (Hinv : Stream_inv (mkStream d 3))
    by (unfold Stream_inv, len, d; simpl; lia).
  assert (Hrem : remaining (mkStream d 3)
                 = be_bytes 4 (len [xff; x7f]) ++ [xff; x7f] ++ [x00])
    by reflexivity.
  assert (Hlen : len [xff; x7f] < 2 ^ 31) by (unfold len; simpl; lia).
  exact (TagByteArray_read_elements true _ _ _ _ _ Hname Hinv Hrem Hlen).
Defined.

(** X11.  An integer tag that was decoded is written back as the very bytes its
    payload was read from: the value fits its format, so [write] does not
    fail. *)
Theorem scalar_read_then_write (fuel : nat) (c : TagClass) (n : nat) (named : bool)
    (s s' : Stream) (t : Tag)
    (Hc : scalar_width c = Some n)
    (Hrd : class_read fuel c named s = (Ok t, s')) :
  exists s0 b,
    Stream_read (Z.of_nat n) s0 = (Ok b, s') /\ Tag_write t = Ok b
    /\ List.length b = n.
Proof.
  assert (Hleaf : class_read fuel c = class_read 0 c).
  { apply class_read_leaf; intros ->; discriminate. }
  rewrite Hleaf in Hrd. clear Hleaf.
  destruct c; try discriminate; injection Hc as <-; simpl in Hrd.
  - apply TagByte_read_inv in Hrd.
    destruct Hrd as (name & v & s0 & b & _ & Hb & Hv & ->).
    exists s0, b. split; [exact Hb | ].
    split; [exact (pack_unpack_signed 1 b v ltac:(lia) Hv) | ].
    exact (proj1 (unpack_signed_range 1 b v ltac:(lia) Hv)).
  - apply (scalar_read_inv 2 TagShort) in Hrd.
    destruct Hrd as (name & v & s0 & b & _ & Hb & Hv & ->).
    exists s0, b. split; [exact Hb | ].
    split; [exact (pack_unpack_signed 2 b v ltac:(lia) Hv) | ].
    exact (proj1 (unpack_signed_range 2 b v ltac:(lia) Hv)).
  - apply (scalar_read_inv 4 TagInt) in Hrd.
    destruct Hrd as (name & v & s0 & b & _ & Hb & Hv & ->).
    exists s0, b. split; [exact Hb | ].
    split; [exact (pack_unpack_signed 4 b v ltac:(lia) Hv) | ].
    exact (proj1 (unpack_signed_range 4 b v ltac:(lia) Hv)).
  - apply (scalar_read_inv 8 TagLong) in Hrd.
    destruct Hrd as (name & v & s0 & b & _ & Hb & Hv & ->).
    exists s0, b. split; [exact Hb | ].
    split; [exact (pack_unpack_signed 8 b v ltac:(lia) Hv) | ].
    exact (proj1 (unpack_signed_range 8 b v ltac:(lia) Hv)).
Qed.

Lemma scalar_read_then_write_witness :
  let d := [x02; x00; x00; xff; xfe] in
  exists s0 b,
    Stream_read 2 s0 = (Ok b, mkStream d 5)
    /\ Tag_write (TagShort (Some []) (-2)) = Ok b /\ List.length b = 2%nat.
Proof.
  intros d.
  assert (Hrd : class_read 0 cTagShort true (mkStream d 1)
                = (Ok (TagShort (Some []) (-2)), mkStream d 5)) by reflexivity.
  exact (scalar_read_then_write 0 cTagShort 2 true _ _ _ eq_refl Hrd).
Defined.

(** ** More on lists *)

(** X12.  [TagList.write] of a list in which some object is not of the class of
    the first one raises [ValueError], whatever the name and whatever the
    elements would write. *)
Theorem TagList_write_heterogeneous (name : option PyStr) (first : Tag)
    (rest : list Tag) (e : Tag)
    (Hin : In e rest) (Hclass : class_of e <> class_of first) :
  Tag_write (TagList name (first :: rest)) = Raise ValueError.
Proof.
  rewrite Tag_write_list.
  destruct (all_isinstance (class_of first) (first :: rest)) eqn:E; [ | reflexivity].
  exfalso. apply Hclass.
  apply (all_isinstance_In (class_of first) (first :: rest) e E).
  right. exact Hin.
Qed.

Lemma TagList_write_heterogeneous_witness :
  Tag_write (TagList (Some []) [TagByte (Some []) 1; TagShort None 2])
  = Raise ValueError.
Proof.
  apply (TagList_write_heterogeneous _ _ _ (TagShort None 2));
    [left; reflexivity | discriminate].
Defined.

(** X13.  [TagList.read] with the element type id 0 and a positive length: the
    first element is asked of [TagEnd.read] with [named=False], which is a
    [TypeError]; the stream is left just after the length. *)
Theorem TagList_read_End_elements (fuel : nat) (named : bool)
    (s s0 s1 s2 : Stream) (name : option PyStr) (b : byte) (rest lb : bytes)
    (length : Z)
    (Hname : read_name named s = (Ok name, s0))
    (Hread : Stream_read 1 s0 = (Ok (b :: rest), s1))
    (Hid : byte_val b = 0)
    (Hlb : Stream_read 4 s1 = (Ok lb, s2))
    (Hlen : unpack_i lb = Ok length)
    (Hpos : 0 < length) :
  TagList_read fuel named s = (Raise TypeError, s2).
Proof.
  unfold TagList_read, TagList_read_with.
  rewrite (bind_ok _ _ s s0 name) by exact Hname.
  rewrite (bind_ok _ _ s0 s1 (b :: rest)) by exact Hread.
  rewrite (bind_ok _ _ s1 s1 (byte_val b)) by reflexivity.
  rewrite Hid. change (TAG_MAP 0) with (Some cTagEnd). cbv iota.
  rewrite (bind_ok _ _ s1 s2 lb) by exact Hlb.
  rewrite (bind_ok _ _ s2 s2 length) by (apply lift_ok; exact Hlen).
  apply Z.ltb_lt in Hpos. rewrite Hpos. apply Z.ltb_lt in Hpos.
  apply bind_raise. unfold range_len.
  destruct (Z.to_nat length) as [| k] eqn:E; [lia | ].
  simpl. apply bind_raise. rewrite class_read_leaf by discriminate. reflexivity.
Qed.

Lemma TagList_read_End_elements_witness :
  let d := [x09; x00; x00; x00; x00; x00; x00; x01; x00] in
  TagList_read 0 true (mkStream d 1) = (Raise TypeError, mkStream d 8).
Proof.
  intros d.
  assert (Hname : read_name true (mkStream d 1) = (Ok (Some []), mkStream d 3))
    by reflexivity.
  assert (Hread : Stream_read 1 (mkStream d 3) = (Ok [x00], mkStream d 4))
    by reflexivity.
  assert (Hlb : Stream_read 4 (mkStream d 4) = (Ok [x00; x00; x00; x01], mkStream d 8))
    by reflexivity.
  assert (Hlen : unpack_i [x00; x00; x00; x01] = Ok 1) by reflexivity.
  exact (TagList_read_End_elements 0 true _ _ _ _ _ _ _ _ _
           Hname Hread eq_refl Hlb Hlen ltac:(lia)).
Defined.

(** X14.  A list that [TagList.read] returns was read as follows: the byte of
    the element type is a registered id, and after the length [n] the list
    holds [n] objects of the class of that id when [n] is positive, and
    nothing otherwise. *)
Theorem TagList_read_elements (fuel : nat) (named : bool) (s s' : Stream) (t : Tag)
    (Hrd : TagList_read fuel named s = (Ok t, s')) :
  exists name payload s0 s1 s2 b lb tag_type length,
    t = TagList name payload
    /\ read_name named s = (Ok name, s0)
    /\ Stream_read 1 s0 = (Ok b, s1)
    /\ first_byte b = Ok (TAG_ID tag_type)
    /\ Stream_read 4 s1 = (Ok lb, s2)
    /\ unpack_i lb = Ok length
    /\ len payload = Z.max 0 length
    /\ Forall (fun e => class_of e = tag_type) payload.
Proof.
  unfold TagList_read, TagList_read_with in Hrd.
  apply bind_inv_ok in Hrd. destruct Hrd as (name & s0 & Hname & H).
  apply bind_inv_ok in H. destruct H as (b & s1 & Hb & H).
  apply bind_inv_ok in H. destruct H as (tag_id & u3 & Hid & H).
  apply lift_inv in Hid. destruct Hid as [Hid ->].
  destruct (TAG_MAP tag_id) as [tag_type | ] eqn:Emap; [ | discriminate].
  apply TAG_MAP_Some_ID in Emap. subst tag_id.
  apply bind_inv_ok in H. destruct H as (lb & s2 & Hlb & H).
  apply bind_inv_ok in H. destruct H as (length & u5 & Hlen & H).
  apply lift_inv in Hlen. destruct Hlen as [Hlen ->].
  apply bind_inv_ok in H. destruct H as (payload & u6 & Hpay & H).
  apply ret_inv in H. destruct H as [<- _].
  exists name, payload, s0, s1, s2, b, lb, tag_type, length.
  repeat split; try assumption.
  - destruct (0 <? length) eqn:E.
    + apply Z.ltb_lt in E.
      destruct (repeatM_Forall (fun _ => True) _ (fun _ _ _ _ => I) _ _ _ _ Hpay)
        as [_ Hl].
      unfold len, range_len in *. rewrite Hl. lia.
    + apply Z.ltb_ge in E. apply ret_inv in Hpay. destruct Hpay as [<- _].
      unfold len. simpl. lia.
  - destruct (0 <? length).
    + eapply (repeatM_Forall (fun e => class_of e = tag_type)); [ | exact Hpay].
      intros ? ? ? Hc. exact (proj1 (class_read_shape _ _ _ _ _ _ Hc)).
    + apply ret_inv in Hpay. destruct Hpay as [<- _]. constructor.
Qed.

Lemma TagList_read_elements_witness :
  let d := [x09; x00; x00; x02; x00; x00; x00; x02; x00; x01; x00; x02] in
  exists name payload s0 s1 s2 b lb tag_type length,
    TagList (Some []) [TagShort None 1; TagShort None 2] = TagList name payload
    /\ read_name true (mkStream d 1) = (Ok name, s0)
    /\ Stream_read 1 s0 = (Ok b, s1)
    /\ first_byte b = Ok (TAG_ID tag_type)
    /\ Stream_read 4 s1 = (Ok lb, s2)
    /\ unpack_i lb = Ok length
    /\ len payload = Z.max 0 length
    /\ Forall (fun e => class_of e = tag_type) payload.
Proof.
  intros d.
  assert (Hrd : TagList_read 0 true (mkStream d 1)
                = (Ok (TagList (Some []) [TagShort None 1; TagShort None 2]),
                   mkStream d 12)) by reflexivity.
  exact (TagList_read_elements 0 true _ _ _ Hrd).
Defined.

(** ** More on the document *)

Lemma all_ok_app {A : Type} (l1 l2 : list (Outcome A)) (r1 r2 : list A) :
  all_ok l1 = Ok r1 -> all_ok l2 = Ok r2 -> all_ok (l1 ++ l2) = Ok (r1 ++ r2).
Proof.
  revert r1. induction l1 as [| o l1 IH]; intros r1 H1 H2.
  - simpl in H1. injection H1 as <-. exact H2.
  - simpl in H1. destruct o as [a | e | ]; try discriminate. simpl in H1.
    destruct (all_ok l1) as [r | e | ] eqn:E; try discriminate.
    simpl in H1. injection H1 as <-.
    simpl. rewrite (IH r eq_refl H2). reflexivity.
Qed.

(** X15.  [build] after [add]: when the document builds to [d] and the new tag
    to [b], the document with the tag added builds to [d] followed by
    [b]. *)
Theorem NBT_add_build (doc : NBT) (t : Tag) (d b : bytes) (doc' : NBT)
    (Hd : NBT_build doc = Ok (d, doc'))
    (Hb : Tag_build t = Ok b) :
  NBT_build (NBT_add doc t) = Ok (d ++ b, mkNBT (d ++ b) (tags doc ++ [t])).
Proof.
  unfold NBT_build in *. unfold NBT_add. simpl.
  destruct (all_ok (map Tag_build (tags doc))) as [r | e | ] eqn:E;
    try discriminate.
  simpl in Hd. injection Hd as Hd _. subst d.
  rewrite map_app.
  rewrite (all_ok_app _ (map Tag_build [t]) r [b] E)
    by (simpl; rewrite Hb; reflexivity).
  simpl. rewrite concat_app. simpl. rewrite app_nil_r. reflexivity.
Qed.

Lemma NBT_add_build_witness :
  NBT_build (NBT_add (mkNBT [] [TagByte (Some [97]) 5]) (TagShort (Some []) 1))
  = Ok ([x01; x00; x01; x61; x05] ++ [x02; x00; x00; x00; x01],
        mkNBT ([x01; x00; x01; x61; x05] ++ [x02; x00; x00; x00; x01])
          ([TagByte (Some [97]) 5] ++ [TagShort (Some []) 1])).
Proof.
  apply (NBT_add_build (mkNBT [] [TagByte (Some [97]) 5]) (TagShort (Some []) 1)
           _ _ (mkNBT [x01; x00; x01; x61; x05] [TagByte (Some [97]) 5]));
    reflexivity.
Defined.

(** ** Negative lengths of arrays *)

Lemma TagByteArray_read_negative_witness :
  let d := [x07; x00; x00; xff; xff; xff; xfe; x01] in
  TagByteArray_read true (mkStream d 1) = (Raise ValueError, mkStream d 7)
  /\ index (mkStream d 7) = index (mkStream d 3) + 4.
Proof.
  intros d.
  exact (TagByteArray_read_negative true (mkStream d 1) (mkStream d 3) (mkStream d 7)
           (Some []) [xff; xff; xff; xfe] (-2)
           eq_refl eq_refl eq_refl ltac:(lia)).
Defined.

Lemma wide_array_read_negative_unnamed_witness :
  let d := [xff; xff; xff; xff] in
  TagIntArray_read false (Stream_init d) = (Raise ValueError, mkStream d 4)
  /\ TagLongArray_read false (Stream_init d) = (Raise ValueError, mkStream d 4).
Proof.
  intros d.
  exact (wide_array_read_negative_unnamed (Stream_init d) (mkStream d 4)
           [xff; xff; xff; xff] (-1) eq_refl eq_refl ltac:(lia)).
Defined.

(** ** Encoding what was decoded *)

Lemma only_raises_obind {A B : Type} (o : Outcome A) (k : A -> Outcome B)
    (P : PyExc -> Prop) :
  only_raises o P -> (forall a, o = Ok a -> only_raises (k a) P) ->
  only_raises (obind o k) P.
Proof. destruct o as [a | e | ]; simpl; intros Ho Hk; auto. Qed.

Lemma only_raises_oapp (a b : Outcome bytes) (P : PyExc -> Prop) :
  only_raises a P -> only_raises b P -> only_raises (oapp a b) P.
Proof.
  intros Ha Hb. unfold oapp. apply only_raises_obind; [exact Ha | intros x _].
  apply only_raises_obind; [exact Hb | intros y _]. exact I.
Qed.

Lemma only_raises_all_ok {A : Type} (l : list (Outcome A)) (P : PyExc -> Prop) :
  Forall (fun o => only_raises o P) l -> only_raises (all_ok l) P.
Proof.
  induction 1 as [| o l Ho Hl IH]; [exact I | ].
  simpl. apply only_raises_obind; [exact Ho | intros a _].
  apply only_raises_obind; [exact IH | intros r _]. exact I.
Qed.

Lemma only_raises_oconcat (l : Outcome (list bytes)) (P : PyExc -> Prop) :
  only_raises l P -> only_raises (oconcat l) P.
Proof.
  intros H. unfold oconcat. apply only_raises_obind; [exact H | intros; exact I].
Qed.

Lemma only_raises_pack_signed (n : nat) (v : Z) :
  only_raises (pack_signed n v) encode_error.
Proof.
  unfold pack_signed.
  destruct ((- 2 ^ (8 * Z.of_nat n - 1) <=? v) && (v <? 2 ^ (8 * Z.of_nat n - 1)));
    simpl; [exact I | left; reflexivity].
Qed.

Lemma only_raises_utf8_encode (s : PyStr) : only_raises (utf8_encode s) encode_error.
Proof.
  induction s as [| c s IH]; [exact I | ].
  simpl. destruct (utf8_encode_char c); [ | right; reflexivity].
  apply only_raises_obind; [exact IH | intros; exact I].
Qed.

Lemma only_raises_array_write (n : nat) (p : list Z) :
  only_raises (array_write n p) encode_error.
Proof.
  unfold array_write. apply only_raises_obind.
  - apply only_raises_oconcat. apply only_raises_all_ok.
    apply Forall_forall. intros o Ho. apply in_map_iff in Ho.
    destruct Ho as (v & <- & _). apply only_raises_pack_signed.
  - intros d _. apply only_raises_obind; [apply only_raises_pack_signed | ].
    intros; exact I.
Qed.

Lemma only_raises_name_header (s : PyStr) :
  only_raises (name_header (Some s)) encode_error.
Proof.
  simpl. apply only_raises_oapp;
    [apply only_raises_pack_signed | apply only_raises_utf8_encode].
Qed.

Lemma decoded_shape_named (t : Tag) :
  decoded_shape true t = true ->
  t = TagEnd \/ exists s, Tag_name t = Some (Some s).
Proof.
  destruct t; simpl; intros H; [left; reflexivity | right ..];
    try (apply andb_true_iff in H; destruct H as [H _]);
    try (apply andb_true_iff in H; destruct H as [H _]);
    try discriminate;
    destruct name as [s | ]; try discriminate; exists s; reflexivity.
Qed.

(** On a tree of decoded shape, [write] finishes, and so does [build] on
    a tree read with its name; they raise nothing but the exceptions of
    [struct.pack] and [str.encode]. *)
Lemma Tag_write_decoded :
  forall (t : Tag) (named : bool),
    decoded_shape named t = true ->
    only_raises (Tag_write t) encode_error
    /\ (named = true -> only_raises (Tag_build t) encode_error).
Proof.
  induction t as [t IH] using Tag_children_ind. intros named Hs.
  assert (Hbuild : only_raises (Tag_write t) encode_error ->
                   named = true -> only_raises (Tag_build t) encode_error).
  { intros Hw ->. destruct (decoded_shape_named t Hs) as [-> | [s Hn]];
      [exact I | ].
    unfold Tag_build, Tag_build_with. rewrite pack_b_TAG_ID. simpl obind at 1.
    rewrite Hn. apply only_raises_obind.
    - apply only_raises_obind; [apply only_raises_name_header | intros; exact I].
    - intros h _. apply only_raises_obind; [exact Hw | intros; exact I]. }
  assert (Hw : only_raises (Tag_write t) encode_error);
    [ | split; [exact Hw | exact (Hbuild Hw)]].
  clear Hbuild.
  destruct t; simpl in Hs; try exact I;
    try (apply only_raises_pack_signed); try (apply only_raises_array_write).
  - (* TagString *)
    simpl. apply only_raises_oapp;
      [apply only_raises_pack_signed | apply only_raises_utf8_encode].
  - (* TagList *)
    apply andb_true_iff in Hs. destruct Hs as [_ Hs].
    destruct payload as [| first rest]; [exact I | ].
    apply andb_true_iff in Hs. destruct Hs as [Hs Hall].
    apply andb_true_iff in Hs. destruct Hs as [_ Hhom].
    rewrite Tag_write_list, Hhom.
    apply only_raises_oapp; [exact I | ].
    apply only_raises_oapp; [apply only_raises_pack_signed | ].
    apply only_raises_oconcat. apply only_raises_all_ok.
    apply Forall_forall. intros o Ho. apply in_map_iff in Ho.
    destruct Ho as (e & <- & He).
    rewrite forallb_forall in Hall.
    exact (proj1 (IH e He false (Hall e He))).
  - (* TagCompound *)
    apply andb_true_iff in Hs. destruct Hs as [_ Hall].
    rewrite Tag_write_compound.
    apply only_raises_oapp; [ | exact I].
    apply only_raises_oconcat. apply only_raises_all_ok.
    apply Forall_forall. intros o Ho. apply in_map_iff in Ho.
    destruct Ho as (e & <- & He).
    rewrite forallb_forall in Hall. specialize (Hall e He).
    apply andb_true_iff in Hall. destruct Hall as [_ Hes].
    exact (proj2 (IH e He true Hes) eq_refl).
Qed.

(** X9.  Building a document that was decoded never fails with the
    [ValueError] that [TagList.write] raises on a list of mixed classes,
    nor with the [TypeError] that [Tag.build] raises on a missing name:
    every list the decoder returns holds objects of one class, and every
    tag it returns where [build] is called has a name. *)
Theorem NBT_build_decoded (fuel : nat) (d : bytes) (doc : NBT)
    (Hdec : NBT_init fuel d = Ok doc) :
  NBT_build doc <> Raise ValueError /\ NBT_build doc <> Raise TypeError.
Proof.
  assert (H : only_raises (NBT_build doc) encode_error).
  { destruct (NBT_init_shape fuel d doc Hdec) as [_ Hshape].
    rewrite forallb_forall in Hshape.
    unfold NBT_build. apply only_raises_obind; [ | intros; exact I].
    apply only_raises_oconcat. apply only_raises_all_ok.
    apply Forall_forall. intros o Ho. apply in_map_iff in Ho.
    destruct Ho as (t & <- & Ht).
    exact (proj2 (Tag_write_decoded t true (Hshape t Ht)) eq_refl). }
  split; intros E; rewrite E in H; destruct H as [H | H]; discriminate H.
Qed.

Lemma NBT_build_decoded_witness :
  NBT_build (mkNBT sample_bytes sample_tags) <> Raise ValueError
  /\ NBT_build (mkNBT sample_bytes sample_tags) <> Raise TypeError.
Proof.
  assert (Hdec : NBT_init 4 sample_bytes = Ok (mkNBT sample_bytes sample_tags))
    by reflexivity.
  exact (NBT_build_decoded 4 _ _ Hdec).
Defined.


(** ** The text of an array *)

Lemma py_slice_drop_last {A : Type} (front : list A) (a : A) :
  py_slice (front ++ [a]) 0 (-1) = front.
Proof.
  unfold py_slice. rewrite len_app.
  pose proof (len_nonneg front) as Hn.
  assert (H1 : len [a] = 1) by reflexivity. rewrite H1.
  assert (Ha : adjust_index (len front + 1) 0 = 0)
    by (apply adjust_index_id; lia).
  assert (Hb : adjust_index (len front + 1) (-1) = len front).
  { unfold adjust_index. change (-1 <? 0) with true. cbv iota.
    destruct (-1 + (len front + 1) <? 0) eqn:E; lia. }
  rewrite Ha, Hb. simpl skipn.
  replace (Z.to_nat (len front - 0)) with (List.length front + 0)%nat
    by (unfold len; lia).
  rewrite firstn_app_2. simpl. apply app_nil_r.
Qed.

Lemma loop_variable_last (front : list Z) (a : Z) :
  loop_variable (front ++ [a]) = Some a.
Proof. unfold loop_variable. rewrite map_app. simpl. apply last_last. Qed.

(** X18.  [__repr__] of an array class (the same body in [TagByteArray],
    [TagIntArray] and [TagLongArray]): for an array of fewer than two
    elements it raises [UnboundLocalError]; for an array of two or more
    it returns a text that lists every element but the last and then the
    one before the last a second time, so that the last element is never
    shown and the text does not depend on it. *)
Theorem array_repr_last_element (label : string)
    (repr_name : option PyStr -> string) (str_int fmt : Z -> string)
    (name : option PyStr) :
  array_repr label repr_name str_int fmt name [] = UnboundLocalError
  /\ (forall a, array_repr label repr_name str_int fmt name [a] = UnboundLocalError)
  /\ (forall front a b,
        array_repr label repr_name str_int fmt name (front ++ [a; b])
        = ReprText
            (fold_left (fun c v => (c ++ fmt v ++ ", ")%string) (front ++ [a])
               (label ++ "(" ++ repr_name name ++ ") (entries: "
                ++ str_int (len (front ++ [a; b])) ++ ")"
                ++ String (ascii_of_nat 10) "[")
             ++ fmt a ++ "]")%string)
  /\ (forall front a b b',
        array_repr label repr_name str_int fmt name (front ++ [a; b])
        = array_repr label repr_name str_int fmt name (front ++ [a; b'])).
Proof.
  assert (Htext : forall front a b,
            array_repr label repr_name str_int fmt name (front ++ [a; b])
            = ReprText
                (fold_left (fun c v => (c ++ fmt v ++ ", ")%string) (front ++ [a])
                   (label ++ "(" ++ repr_name name ++ ") (entries: "
                    ++ str_int (len (front ++ [a; b])) ++ ")"
                    ++ String (ascii_of_nat 10) "[")
                 ++ fmt a ++ "]")%string).
  { intros front a b. unfold array_repr.
    replace (front ++ [a; b]) with ((front ++ [a]) ++ [b])
      by (rewrite <- app_assoc; reflexivity).
    rewrite py_slice_drop_last, loop_variable_last. reflexivity. }
  split; [reflexivity | ]. split; [intros a; reflexivity | ].
  split; [exact Htext | ].
  intros front a b b'. rewrite !Htext.
  replace (len (front ++ [a; b'])) with (len (front ++ [a; b]))
    by (unfold len; rewrite !length_app; reflexivity).
  reflexivity.
Qed.

(** ** [read_string] within the buffer *)

(** X19.  [read_string] on a stream whose position lies within its
    buffer: when the two bytes of a length [n] between 0 and 32767 are
    followed by [n] bytes, it returns what the UTF-8 decoding of these
    [n] bytes gives, a string or [UnicodeDecodeError], and in both cases
    leaves the stream just after them. *)
Theorem read_string_reads (s : Stream) (x r : bytes)
    (Hinv : Stream_inv s)
    (Hrem : remaining s = be_bytes 2 (len x) ++ x ++ r)
    (Hlen : len x < 32768) :
  read_string s = (utf8_decode x, advance s (2 + len x)).
Proof.
  assert (Hr : in_range 2 (len x) = true).
  { pose proof (len_nonneg x). unfold in_range. apply andb_true_iff.
    split; [apply Z.leb_le | apply Z.ltb_lt]; simpl; lia. }
  assert (H2 : len (be_bytes 2 (len x)) = 2)
    by (unfold len; rewrite length_be_bytes; reflexivity).
  unfold read_string.
  rewrite (bind_ok _ _ s (advance s (len (be_bytes 2 (len x)))) (be_bytes 2 (len x)))
    by (apply (parses_read _ 2 (eq_sym H2) s (x ++ r) Hinv Hrem)).
  destruct (advance_remaining s _ _ Hinv Hrem) as [Hinv1 Hrem1].
  rewrite H2 in *.
  rewrite (bind_ok _ _ (advance s 2) (advance s 2) (len x)).
  2:{ apply lift_ok. apply (unpack_pack_signed 2 (len x)); [lia | ].
      apply pack_signed_in_range. exact Hr. }
  rewrite (bind_ok _ _ (advance s 2) (advance (advance s 2) (len x)) x)
    by (apply (parses_read x (len x) eq_refl _ r Hinv1 Hrem1)).
  rewrite advance_advance. reflexivity.
Qed.

Lemma read_string_reads_witness :
  let d := [x08; x00; x02; x68; x69; x00] in
  read_string (mkStream d 1) = (utf8_decode [x68; x69], mkStream d 5)
  /\ utf8_decode [x68; x69] = Ok [104; 105].
Proof.
  intros d.
  assert (Hinv : Stream_inv (mkStream d 1))
    by (unfold Stream_inv, len, d; simpl; lia).
  assert (Hrem : remaining (mkStream d 1)
                 = be_bytes 2 (len [x68; x69]) ++ [x68; x69] ++ [x00])
    by reflexivity.
  assert (Hlen : len [x68; x69] < 32768) by (unfold len; simpl; lia).
  split; [ | reflexivity].
  exact (read_string_reads _ _ _ Hinv Hrem Hlen).
Defined.

(** ** Buffers that end too early *)

Lemma remaining_len (s : Stream) :
  Stream_inv s -> len (remaining s) = len (data s) - index s.
Proof.
  unfold Stream_inv, remaining, len. intros H. rewrite length_skipn. lia.
Qed.

Lemma proper_prefix_nil (x' : bytes) : ~ proper_prefix x' [].
Proof.
  intros (y & Hy & H). destruct x'; destruct y; try discriminate. contradiction.
Qed.

Lemma cut_short_nil {A : Type} (c : M A) : cut_short c [].
Proof. intros s x' _ _ H. destruct (proper_prefix_nil x' H). Qed.

Lemma cut_short_read (x : bytes) (n : Z) : n = len x -> cut_short (Stream_read n) x.
Proof.
  intros -> s x' Hinv Hrem (y & Hy & Hx).
  exists s. apply Stream_read_eof.
  pose proof (remaining_len s Hinv) as Hl. rewrite Hrem in Hl.
  rewrite Hx, len_app.
  assert (0 < len y) by (destruct y; [contradiction | unfold len; simpl; lia]).
  lia.
Qed.

Lemma cut_short_bind {A B : Type} (c : M A) (k : A -> M B) (x y : bytes) (a : A) :
  parses c x a -> cut_short c x -> cut_short (k a) y ->
  cut_short (bind c k) (x ++ y).
Proof.
  intros Hp Hc Hk s x' Hinv Hrem (y0 & Hy0 & Hx).
  apply app_eq_app in Hx. destruct Hx as (l & [[Hx1 Hx2] | [Hx1 Hx2]]).
  - destruct l as [| b l].
    + (* the buffer ends just after [x] *)
      rewrite app_nil_r in Hx1. simpl in Hx2.
      assert (Hrem' : remaining s = x ++ [])
        by (rewrite app_nil_r, Hx1; exact Hrem).
      rewrite (bind_ok _ _ s (advance s (len x)) a) by (apply (Hp s [] Hinv Hrem')).
      destruct (advance_remaining s x [] Hinv Hrem') as [Hinv1 Hrem1].
      apply (Hk _ [] Hinv1 Hrem1). exists y.
      split; [rewrite <- Hx2; exact Hy0 | reflexivity].
    + (* the buffer ends inside [x] *)
      destruct (Hc s x' Hinv Hrem) as [s' Hs'].
      { exists (b :: l). split; [discriminate | exact Hx1]. }
      exists s'. apply bind_raise. exact Hs'.
  - (* the buffer ends after [x], inside [y] *)
    assert (Hrem' : remaining s = x ++ l) by (rewrite <- Hx1; exact Hrem).
    rewrite (bind_ok _ _ s (advance s (len x)) a) by (apply (Hp s l Hinv Hrem')).
    destruct (advance_remaining s x l Hinv Hrem') as [Hinv1 Hrem1].
    apply (Hk _ l Hinv1 Hrem1). exists y0. split; [exact Hy0 | exact Hx2].
Qed.

Lemma cut_short_refines {A : Type} (c c' : M A) (x : bytes) :
  refines c c' -> cut_short c x -> cut_short c' x.
Proof.
  intros Href Hc s x' Hinv Hrem Hpre.
  destruct (Hc s x' Hinv Hrem Hpre) as [s' Hs'].
  exists s'. apply Href; [exact Hs' | discriminate].
Qed.

Lemma good_ret {A : Type} (a : A) : good (ret a) [] a.
Proof. split; [apply parses_ret | apply cut_short_nil]. Qed.

Lemma good_lift {A : Type} (o : Outcome A) (a : A) : o = Ok a -> good (lift o) [] a.
Proof. intros H. split; [apply parses_lift; exact H | apply cut_short_nil]. Qed.

Lemma good_read (x : bytes) (n : Z) : n = len x -> good (Stream_read n) x x.
Proof. intros H. split; [apply parses_read | apply cut_short_read]; exact H. Qed.

Lemma good_bind {A B : Type} (c : M A) (k : A -> M B) (x y : bytes) (a : A) (b : B) :
  good c x a -> good (k a) y b -> good (bind c k) (x ++ y) b.
Proof.
  intros [Hp Hc] [Hkp Hkc]. split.
  - exact (parses_bind c k x y a b Hp Hkp).
  - exact (cut_short_bind c k x y a Hp Hc Hkc).
Qed.

Lemma good_refines {A : Type} (c c' : M A) (x : bytes) (a : A) :
  refines c c' -> good c x a -> good c' x a.
Proof.
  intros Href [Hp Hc]. split.
  - exact (parses_refines c c' x a Href Hp).
  - exact (cut_short_refines c c' x Href Hc).
Qed.

Lemma good_repeatM {A : Type} (c : M A) (xs : list bytes) (l : list A) :
  Forall2 (fun x a => good c x a) xs l ->
  good (repeatM (List.length l) c) (List.concat xs) l.
Proof.
  induction 1 as [| x a xs l Hx Hrest IH]; [apply good_ret | ].
  simpl. apply good_bind with (a := a); [exact Hx | ].
  rewrite <- (app_nil_r (List.concat xs)).
  apply good_bind with (a := l); [exact IH | apply good_ret].
Qed.

Lemma good_compound_loop (create : M Tag) (xs : list bytes) (l : list Tag) :
  Forall2 (fun x t => good create x t /\ t <> TagEnd) xs l ->
  good create [x00] TagEnd ->
  forall (n : nat) (acc : list Tag),
    (List.length l < n)%nat ->
    good (compound_loop create n acc) (List.concat xs ++ [x00]) (rev acc ++ l).
Proof.
  intros Hall Hend.
  induction Hall as [| x t xs l [Hx Hne] Hrest IH]; intros n acc Hn.
  - destruct n as [| n]; [simpl in Hn; lia | ].
    rewrite compound_loop_S. simpl List.concat. simpl app at 1.
    rewrite <- (app_nil_r [x00]). apply good_bind with (a := TagEnd); [exact Hend | ].
    simpl. rewrite app_nil_r. apply good_ret.
  - destruct n as [| n]; [simpl in Hn; lia | ].
    rewrite compound_loop_S. simpl List.concat. rewrite <- app_assoc.
    apply good_bind with (a := t); [exact Hx | ].
    apply is_End_false in Hne. rewrite Hne.
    replace (rev acc ++ t :: l) with (rev (t :: acc) ++ l)
      by (simpl; rewrite <- app_assoc; reflexivity).
    apply IH. simpl in Hn. lia.
Qed.

Lemma good_read_string (s : PyStr) :
  str_ok s = true ->
  exists x, oapp (pack_h (len s)) (utf8_encode s) = Ok x /\ good read_string x s.
Proof.
  intros H. apply str_ok_inv in H. destruct H as [Ha Hl].
  assert (Hr : in_range 2 (len s) = true).
  { unfold in_range. apply andb_true_iff. split;
      [apply Z.leb_le | apply Z.ltb_lt]; simpl; lia. }
  exists (be_bytes 2 (len s) ++ map byte_of_Z s). split.
  - unfold pack_h. rewrite (pack_signed_in_range 2 _ Hr), (utf8_encode_ascii s Ha).
    reflexivity.
  - unfold read_string.
    apply good_bind with (a := be_bytes 2 (len s));
      [apply good_read; unfold len; rewrite length_be_bytes; reflexivity | ].
    rewrite <- (app_nil_l (map byte_of_Z s)).
    apply good_bind with (a := len s).
    { apply good_lift. unfold unpack_h.
      apply (unpack_pack_signed 2 (len s)); [lia | ].
      apply pack_signed_in_range. exact Hr. }
    rewrite <- (app_nil_r (map byte_of_Z s)).
    apply good_bind with (a := map byte_of_Z s).
    { apply good_read. unfold len. rewrite length_map. reflexivity. }
    apply good_lift. apply utf8_decode_ascii. exact Ha.
Qed.

Lemma good_Tag_create_with (rd : TagClass -> bool -> M Tag) (c : TagClass)
    (x : bytes) (t : Tag) :
  good (rd c true) x t ->
  good (Tag_create_with rd) (byte_of_Z (TAG_ID c) :: x) t.
Proof.
  intros H. unfold Tag_create_with.
  change (byte_of_Z (TAG_ID c) :: x) with ([byte_of_Z (TAG_ID c)] ++ x).
  apply good_bind with (a := [byte_of_Z (TAG_ID c)]);
    [apply good_read; reflexivity | ].
  apply (good_bind _ _ [] x (TAG_ID c)).
  - apply good_lift. simpl. rewrite byte_val_TAG_ID. reflexivity.
  - rewrite TAG_MAP_TAG_ID. exact H.
Qed.

Lemma good_read_name (named : bool) (c : TagClass) (n : option PyStr) :
  name_ok named c n = true -> c <> cTagByte ->
  exists hdr,
    (if named then name_header n else Ok []) = Ok hdr
    /\ good (read_name named) hdr n.
Proof.
  intros H Hc. unfold name_ok in H. destruct n as [s | ].
  - destruct named.
    + destruct (good_read_string s H) as (x & Hx & Hp).
      exists x. split; [exact Hx | ].
      unfold read_name. rewrite <- (app_nil_r x).
      apply good_bind with (a := s); [exact Hp | apply good_ret].
    + apply andb_true_iff in H. destruct H as [H _].
      destruct c; try discriminate. contradiction.
  - destruct named; [discriminate | ].
    exists []. split; [reflexivity | apply good_ret].
Qed.

Lemma good_read_name_byte (named : bool) (n : option PyStr) :
  name_ok named cTagByte n = true ->
  exists hdr s,
    n = Some s
    /\ (if named then name_header n else Ok []) = Ok hdr
    /\ good (if named then read_string else ret []) hdr s.
Proof.
  intros H. unfold name_ok in H. destruct n as [s | ].
  - destruct named.
    + destruct (good_read_string s H) as (x & Hx & Hp).
      exists x, s. repeat split; try assumption; apply Hp.
    + destruct s; [ | discriminate].
      exists [], []. split; [reflexivity | ]. split; [reflexivity | apply good_ret].
  - destruct named; discriminate.
Qed.

Lemma good_scalar (n : nat) (v : Z) (k : Z -> Tag) :
  (1 <= n)%nat -> in_range n v = true ->
  good (b <- Stream_read (Z.of_nat n) ;;
        payload <- lift (unpack_signed n b) ;; ret (k payload))
       (be_bytes n v) (k v).
Proof.
  intros Hn Hr. rewrite <- (app_nil_r (be_bytes n v)).
  apply good_bind with (a := be_bytes n v).
  { apply good_read. unfold len. rewrite length_be_bytes. reflexivity. }
  apply (good_bind _ _ [] [] v); [ | apply good_ret].
  apply good_lift. apply (unpack_pack_signed n v); [exact Hn | ].
  apply pack_signed_in_range. exact Hr.
Qed.

Lemma good_array_body_bytes (p : list Z) (body : bytes) :
  forallb (in_range 1) p = true -> (len p <? 2 ^ 31) = true ->
  array_write 1 p = Ok body -> good (array_body 1) body p.
Proof.
  intros Hall Hlen Hw.
  destruct (parses_array_body_bytes p Hall Hlen) as (body' & Hw' & Hp).
  assert (body' = body) by congruence. subst body'.
  split; [exact Hp | ].
  pose proof (in_range_4_len p Hlen) as Hr4.
  assert (Hpack : all_ok (map (pack_signed 1) p) = Ok (map (be_bytes 1) p)).
  { clear Hlen Hr4 Hw Hw' Hp. induction p as [| v p IH]; [reflexivity | ].
    simpl in Hall. apply andb_true_iff in Hall. destruct Hall as [Hv Hp].
    simpl. rewrite (pack_signed_in_range 1 v Hv). simpl. rewrite (IH Hp).
    reflexivity. }
  set (d := List.concat (map (be_bytes 1) p)).
  assert (Hbody : body = be_bytes 4 (len p) ++ d).
  { assert (Hw2 : array_write 1 p = Ok (be_bytes 4 (len p) ++ d)).
    { unfold array_write. rewrite Hpack. simpl. unfold pack_i.
      rewrite (pack_signed_in_range 4 _ Hr4). reflexivity. }
    congruence. }
  rewrite Hbody. unfold array_body.
  apply cut_short_bind with (a := be_bytes 4 (len p)).
  { apply parses_read. unfold len. rewrite length_be_bytes. reflexivity. }
  { apply cut_short_read. unfold len. rewrite length_be_bytes. reflexivity. }
  apply (cut_short_bind _ _ [] d (len p)).
  { apply parses_lift. apply (unpack_pack_signed 4 (len p)); [lia | ].
    apply pack_signed_in_range. exact Hr4. }
  { apply cut_short_nil. }
  assert (E : (len p <? 0) = false) by (apply Z.ltb_ge; apply len_nonneg).
  rewrite E. rewrite <- (app_nil_r d).
  apply cut_short_bind with (a := d).
  { apply parses_read. unfold len. f_equal. symmetry.
    apply length_concat_be_bytes_1. }
  { apply cut_short_read. unfold len. f_equal. symmetry.
    apply length_concat_be_bytes_1. }
  apply cut_short_nil.
Qed.

Lemma good_Tag_create_End (fuel : nat) : good (Tag_create fuel) [x00] TagEnd.
Proof.
  apply (good_Tag_create_with (class_read fuel) cTagEnd [] TagEnd).
  rewrite class_read_leaf by discriminate. apply good_ret.
Qed.

Lemma good_leaf (named : bool) (t : Tag) (x : bytes) :
  class_of t <> cTagList -> class_of t <> cTagCompound ->
  good (class_read 0 (class_of t) named) x t ->
  exists f0 : nat,
    forall fuel : nat,
      (f0 <= fuel)%nat -> good (class_read fuel (class_of t) named) x t.
Proof.
  intros H1 H2 Hp. exists 0%nat. intros fuel _.
  rewrite class_read_leaf by assumption. exact Hp.
Qed.

(** For a tree the codec carries, the [read] method of its class reads the
    tree from the bytes written for it and raises [EOFError] on every
    proper prefix of them at the end of a buffer. *)
Lemma write_good :
  forall (t : Tag) (named : bool),
    codec_ok named t = true ->
    exists hdr body,
      name_bytes named t = Ok hdr /\ Tag_write t = Ok body
      /\ exists f0 : nat,
           forall fuel : nat,
             (f0 <= fuel)%nat ->
             good (class_read fuel (class_of t) named) (hdr ++ body) t.
Proof.
  induction t as [t IH] using Tag_children_ind. intros named Hok.
  destruct t; simpl in Hok; try discriminate.
  - (* TagByte *)
    apply andb_true_iff in Hok. destruct Hok as [Hn Hr].
    destruct (good_read_name_byte named name Hn) as (hdr & s & -> & Hh & Hp).
    exists hdr, (be_bytes 1 payload).
    split; [exact Hh | ]. split; [exact (pack_signed_in_range 1 _ Hr) | ].
    apply good_leaf; try discriminate.
    apply good_bind with (a := s); [exact Hp | ].
    exact (good_scalar 1 payload (TagByte (Some s)) ltac:(lia) Hr).
  - (* TagShort *)
    apply andb_true_iff in Hok. destruct Hok as [Hn Hr].
    destruct (good_read_name named _ name Hn ltac:(discriminate)) as (hdr & Hh & Hp).
    exists hdr, (be_bytes 2 payload).
    split; [exact Hh | ]. split; [exact (pack_signed_in_range 2 _ Hr) | ].
    apply good_leaf; try discriminate.
    apply good_bind with (a := name); [exact Hp | ].
    exact (good_scalar 2 payload (TagShort name) ltac:(lia) Hr).
  - (* TagInt *)
    apply andb_true_iff in Hok. destruct Hok as [Hn Hr].
    destruct (good_read_name named _ name Hn ltac:(discriminate)) as (hdr & Hh & Hp).
    exists hdr, (be_bytes 4 payload).
    split; [exact Hh | ]. split; [exact (pack_signed_in_range 4 _ Hr) | ].
    apply good_leaf; try discriminate.
    apply good_bind with (a := name); [exact Hp | ].
    exact (good_scalar 4 payload (TagInt name) ltac:(lia) Hr).
  - (* TagLong *)
    apply andb_true_iff in Hok. destruct Hok as [Hn Hr].
    destruct (good_read_name named _ name Hn ltac:(discriminate)) as (hdr & Hh & Hp).
    exists hdr, (be_bytes 8 payload).
    split; [exact Hh | ]. split; [exact (pack_signed_in_range 8 _ Hr) | ].
    apply good_leaf; try discriminate.
    apply good_bind with (a := name); [exact Hp | ].
    exact (good_scalar 8 payload (TagLong name) ltac:(lia) Hr).
  - (* TagByteArray *)
    apply andb_true_iff in Hok. destruct Hok as [Hok Hlen].
    apply andb_true_iff in Hok. destruct Hok as [Hn Hall].
    destruct (good_read_name named _ name Hn ltac:(discriminate)) as (hdr & Hh & Hp).
    destruct (parses_array_body_bytes payload Hall Hlen) as (body & Hw & _).
    pose proof (good_array_body_bytes payload body Hall Hlen Hw) as Hb.
    exists hdr, body. split; [exact Hh | ]. split; [exact Hw | ].
    apply good_leaf; try discriminate.
    apply good_bind with (a := name); [exact Hp | ].
    rewrite <- (app_nil_r body).
    apply good_bind with (a := payload); [exact Hb | apply good_ret].
  - (* TagString *)
    apply andb_true_iff in Hok. destruct Hok as [Hn Hs].
    destruct (good_read_name named _ name Hn ltac:(discriminate)) as (hdr & Hh & Hp).
    destruct (good_read_string payload Hs) as (body & Hw & Hb).
    exists hdr, body. split; [exact Hh | ]. split; [exact Hw | ].
    apply good_leaf; try discriminate.
    apply good_bind with (a := name); [exact Hp | ].
    rewrite <- (app_nil_r body).
    apply good_bind with (a := payload); [exact Hb | apply good_ret].
  - (* TagList *)
    apply andb_true_iff in Hok. destruct Hok as [Hn Hok].
    destruct payload as [| first rest]; [discriminate | ].
    apply andb_true_iff in Hok. destruct Hok as [Hok Hlen].
    apply andb_true_iff in Hok. destruct Hok as [Hhom Hall].
    set (p := first :: rest) in *. set (c := class_of first) in *.
    destruct (good_read_name named _ name Hn ltac:(discriminate)) as (hdr & Hh & Hp).
    destruct (all_ok_Forall2 Tag_write
                (fun x e => exists f0, good (class_read f0 c false) x e) p)
      as (bodies & Hbodies & Hel).
    { intros e He. rewrite forallb_forall in Hall.
      destruct (IH e He false (Hall e He)) as (h & b & Hh' & Hb & f0 & Hrb).
      unfold name_bytes in Hh'. assert (h = []) by congruence. subst h.
      exists b. split; [exact Hb | ]. exists f0.
      rewrite <- (all_isinstance_In c p e Hhom He). apply Hrb. lia. }
    apply fuel_Forall2 in Hel.
    2:{ intros f f' x e Hf. apply good_refines. apply class_read_mono. exact Hf. }
    destruct Hel as [f1 Hel].
    pose proof (in_range_4_len p Hlen) as Hr4.
    exists hdr, (byte_of_Z (TAG_ID c) :: be_bytes 4 (len p) ++ List.concat bodies).
    split; [exact Hh | ]. split.
    { unfold p at 1. rewrite Tag_write_list. fold p c. rewrite Hhom, Hbodies.
      unfold pack_i. rewrite (pack_signed_in_range 4 _ Hr4). reflexivity. }
    exists (S f1). intros fuel Hf. destruct fuel as [| f]; [lia | ].
    change (class_read (S f) (class_of (TagList name p)) named)
      with (TagList_read_with (class_read f) named).
    unfold TagList_read_with.
    apply good_bind with (a := name); [exact Hp | ].
    change (byte_of_Z (TAG_ID c) :: be_bytes 4 (len p) ++ List.concat bodies)
      with ([byte_of_Z (TAG_ID c)] ++ (be_bytes 4 (len p) ++ List.concat bodies)).
    apply good_bind with (a := [byte_of_Z (TAG_ID c)]);
      [apply good_read; reflexivity | ].
    apply (good_bind _ _ [] (be_bytes 4 (len p) ++ List.concat bodies) (TAG_ID c)).
    { apply good_lift. simpl. rewrite byte_val_TAG_ID. reflexivity. }
    rewrite TAG_MAP_TAG_ID.
    apply good_bind with (a := be_bytes 4 (len p)).
    { apply good_read. unfold len. rewrite length_be_bytes. reflexivity. }
    apply (good_bind _ _ [] (List.concat bodies) (len p)).
    { apply good_lift. apply (unpack_pack_signed 4 (len p)); [lia | ].
      apply pack_signed_in_range. exact Hr4. }
    rewrite <- (app_nil_r (List.concat bodies)).
    apply good_bind with (a := p); [ | apply good_ret].
    assert (E : (0 <? len p) = true) by (apply Z.ltb_lt; unfold len, p; simpl; lia).
    rewrite E. unfold range_len, len. rewrite Nat2Z.id.
    apply good_repeatM.
    eapply Forall2_impl; [ | exact Hel].
    intros x e Hx. eapply good_refines; [ | exact Hx].
    apply class_read_mono. lia.
  - (* TagCompound *)
    apply andb_true_iff in Hok. destruct Hok as [Hn Hall].
    destruct (good_read_name named _ name Hn ltac:(discriminate)) as (hdr & Hh & Hp).
    destruct (all_ok_Forall2 Tag_build
                (fun x e => exists f0, good (Tag_create f0) x e /\ e <> TagEnd)
                payload)
      as (builds & Hbuilds & Hel).
    { intros e He. rewrite forallb_forall in Hall.
      destruct (IH e He true (Hall e He)) as (h & b & Hh' & Hb & f0 & Hrb).
      destruct (name_ok_of_codec_ok true e (Hall e He)) as (n & Hname & _).
      exists (byte_of_Z (TAG_ID (class_of e)) :: h ++ b).
      split; [exact (Tag_build_of_write e n h b Hname Hh' Hb) | ].
      exists f0. split.
      - apply good_Tag_create_with. apply Hrb. lia.
      - intros ->. discriminate. }
    apply fuel_Forall2 in Hel.
    2:{ intros f f' x e Hf [Hx Hne]. split; [ | exact Hne].
        eapply good_refines; [ | exact Hx]. apply Tag_create_mono. exact Hf. }
    destruct Hel as [f1 Hel].
    exists hdr, (List.concat builds ++ [x00]).
    split; [exact Hh | ]. split.
    { rewrite Tag_write_compound, Hbuilds. reflexivity. }
    exists (S (Nat.max f1 (S (List.length payload)))).
    intros fuel Hf. destruct fuel as [| f]; [lia | ].
    change (class_read (S f) (class_of (TagCompound name payload)) named)
      with (TagCompound_read_with (Tag_create f) f named).
    unfold TagCompound_read_with.
    apply good_bind with (a := name); [exact Hp | ].
    rewrite <- (app_nil_r (List.concat builds ++ [x00])).
    apply good_bind with (a := payload); [ | apply good_ret].
    apply (good_compound_loop (Tag_create f) builds payload); [ | | lia].
    + eapply Forall2_impl; [ | exact Hel].
      intros x e [Hx Hne]. split; [ | exact Hne].
      eapply good_refines; [ | exact Hx]. apply Tag_create_mono. lia.
    + apply good_Tag_create_End.
Qed.

Lemma build_good (t : Tag) :
  codec_ok true t = true ->
  exists x,
    Tag_build t = Ok x /\ x <> []
    /\ exists f0, forall fuel, (f0 <= fuel)%nat -> good (Tag_create fuel) x t.
Proof.
  intros Hok.
  destruct (write_good t true Hok) as (hdr & body & Hh & Hw & f0 & Hrb).
  destruct (name_ok_of_codec_ok true t Hok) as (n & Hname & _).
  exists (byte_of_Z (TAG_ID (class_of t)) :: hdr ++ body).
  split; [exact (Tag_build_of_write t n hdr body Hname Hh Hw) | ].
  split; [discriminate | ].
  exists f0. intros fuel Hf. apply good_Tag_create_with. apply Hrb. exact Hf.
Qed.


(** ** Compounds, complete and cut short *)








(** ** The round trip, for the runs that finish *)






